(** * Proposal-generation request pipeline

    A shallow embedding of the browser-side orchestrator
    ([frontend/script.js]) and of the Express proxy / catalog gateway
    ([server.js]), with the properties of the request life cycle proved
    over it.

    Conventions of the embedding:
    - a JavaScript string is its sequence of UTF-16 code units ([list N]);
    - [null] / [undefined] / a missing DOM element is [None];
    - everything the handlers observe from outside (local storage, form
      state, the network, the backing store) is an explicit input, and
      everything they do to the outside is recorded in a trace of events;
    - [console.*] calls are not recorded: they have no effect on the page
      or on the response. *)

From Stdlib Require Import NArith PeanoNat List String Ascii Bool Lia DecimalString.
Import ListNotations.
Local Open Scope N_scope.
Local Open Scope list_scope.

(* ================================================================== *)
(** ** JavaScript strings and the builtins the sources call *)

Module JS.

Definition str := list N.

(** An ASCII literal of the source, as code units. *)
Definition lit (s : string) : str := map N_of_ascii (list_ascii_of_string s).

Definition str_eqb (a b : str) : bool :=
  if list_eq_dec N.eq_dec a b then true else false.

(** [ToBoolean] on a string: only the empty string is falsy. *)
Definition truthy (s : str) : bool :=
  match s with [] => false | _ :: _ => true end.

(** [a || b] on strings. *)
Definition or_else (a b : str) : str := if truthy a then a else b.

(** [a || b] where [a] may be [null]. *)
Definition opt_or_else (a : option str) (b : str) : str :=
  match a with
  | Some s => or_else s b
  | None => b
  end.

(** ECMAScript WhiteSpace and LineTerminator code points, the set that
    [String.prototype.trim] strips. *)
Definition is_space (c : N) : bool :=
  (c =? 9) || (c =? 10) || (c =? 11) || (c =? 12) || (c =? 13) ||
  (c =? 32) || (c =? 160) || (c =? 5760) ||
  ((8192 <=? c) && (c <=? 8202)) ||
  (c =? 8232) || (c =? 8233) || (c =? 8239) || (c =? 8287) ||
  (c =? 12288) || (c =? 65279).

Fixpoint trimStart (s : str) : str :=
  match s with
  | [] => []
  | c :: t => if is_space c then trimStart t else s
  end.

Definition trimEnd (s : str) : str := rev (trimStart (rev s)).

Definition trim (s : str) : str := trimEnd (trimStart s).

(** [Array.prototype.join] on an array of strings. *)
Fixpoint join (sep : str) (xs : list str) : str :=
  match xs with
  | [] => []
  | [x] => x
  | x :: rest => x ++ sep ++ join sep rest
  end.

(** [String.prototype.slice(0, n)]. *)
Definition slice0 (n : nat) (s : str) : str := firstn n s.

(** Decimal rendering of a non-negative integer, as template literals and
    [+] produce it. *)
Definition of_num (n : N) : str := lit (NilEmpty.string_of_uint (N.to_uint n)).

(** *** Case-insensitive matching of an ASCII pattern

    Under the [i] flag (without [u]) a pattern letter matches its two ASCII
    cases only: canonicalisation never maps a code unit above 127 to one
    below 128. *)
Definition upper (c : N) : N :=
  if (97 <=? c) && (c <=? 122) then c - 32 else c.

Fixpoint match_ci (pat s : str) : option str :=
  match pat, s with
  | [], _ => Some s
  | _ :: _, [] => None
  | p :: pat', c :: s' => if upper p =? upper c then match_ci pat' s' else None
  end.

(** [replace] of a literal ASCII pattern under the [i] flag by the empty
    string: the first occurrence is removed. *)
Fixpoint remove_first_ci (pat s : str) : str :=
  match match_ci pat s with
  | Some rest => rest
  | None =>
      match s with
      | [] => []
      | c :: t => c :: remove_first_ci pat t
      end
  end.

(** The global replace that deletes every apostrophe (39) and every
    double quote (34). *)
Definition remove_quotes (s : str) : str :=
  filter (fun c => negb ((c =? 39) || (c =? 34))) s.

(** *** decodeURIComponent

    ECMAScript [Decode] with an empty reserved set.  The result is either
    the decoded string or a thrown [URIError]. *)

Definition hex_digit (c : N) : option N :=
  if (48 <=? c) && (c <=? 57) then Some (c - 48)
  else if (65 <=? c) && (c <=? 70) then Some (c - 55)
  else if (97 <=? c) && (c <=? 102) then Some (c - 87)
  else None.

(** The two hexadecimal digits that follow a [%]. *)
Definition octet_at (s : str) : option N :=
  match s with
  | h :: l :: _ =>
      match hex_digit h, hex_digit l with
      | Some a, Some b => Some (16 * a + b)
      | _, _ => None
      end
  | _ => None
  end.

(** A continuation escape [%XX] whose octet has the form [10xxxxxx]. *)
Definition continuation_at (s : str) : option N :=
  match s with
  | 37 :: t =>
      match octet_at t with
      | Some b => if (128 <=? b) && (b <=? 191) then Some b else None
      | None => None
      end
  | _ => None
  end.

Definition utf16 (cp : N) : str :=
  if cp <? 65536 then [cp]
  else [55296 + (cp - 65536) / 1024; 56320 + (cp - 65536) mod 1024].

(** The escape sequence whose [%] has just been read: the code units it
    decodes to and how many code units after the [%] it occupies. *)
Definition escape_at (s : str) : option (str * nat) :=
  match octet_at s with
  | None => None
  | Some b =>
      if b <? 128 then Some ([b], 2%nat)
      else if (194 <=? b) && (b <=? 223) then
        match continuation_at (skipn 2 s) with
        | Some c1 => Some (utf16 ((b - 192) * 64 + (c1 - 128)), 5%nat)
        | None => None
        end
      else if (224 <=? b) && (b <=? 239) then
        match continuation_at (skipn 2 s), continuation_at (skipn 5 s) with
        | Some c1, Some c2 =>
            let cp := (b - 224) * 4096 + (c1 - 128) * 64 + (c2 - 128) in
            if (cp <? 2048) || ((55296 <=? cp) && (cp <=? 57343)) then None
            else Some (utf16 cp, 8%nat)
        | _, _ => None
        end
      else if (240 <=? b) && (b <=? 244) then
        match continuation_at (skipn 2 s), continuation_at (skipn 5 s),
              continuation_at (skipn 8 s) with
        | Some c1, Some c2, Some c3 =>
            let cp := (b - 240) * 262144 + (c1 - 128) * 4096
                      + (c2 - 128) * 64 + (c3 - 128) in
            if (cp <? 65536) || (1114111 <? cp) then None
            else Some (utf16 cp, 11%nat)
        | _, _, _ => None
        end
      else None
  end.

Inductive decoded :=
| Decoded (s : str)
| URIError.

Definition prepend (u : str) (r : decoded) : decoded :=
  match r with
  | Decoded s => Decoded (u ++ s)
  | URIError => URIError
  end.

(** [skip] counts the code units of an escape sequence still to be passed
    over (the index [k] of the specification's loop). *)
Fixpoint decode_from (skip : nat) (s : str) : decoded :=
  match s with
  | [] => Decoded []
  | c :: t =>
      match skip with
      | S k => decode_from k t
      | O =>
          if c =? 37 then
            match escape_at t with
            | Some (u, n) => prepend u (decode_from n t)
            | None => URIError
            end
          else prepend [c] (decode_from 0 t)
      end
  end.

Definition decodeURIComponent (s : str) : decoded := decode_from 0 s.

(** *** Errors and promises *)

(** A thrown value: an [Error] object, by its [name] and [message]. *)
Record error := {
  err_name : str;
  err_message : str
}.

(** How an awaited promise settles. *)
Inductive settled (A : Type) :=
| Resolves (a : A)
| Rejects (e : error).
Arguments Resolves {A} a.
Arguments Rejects {A} e.

(** The octets of a [Blob] or [Buffer]. *)
Definition bytes := list N.

End JS.

(* ================================================================== *)
(** ** HTTP headers, as [Headers.get] of the Fetch API and of node-fetch
       read them *)

Module Http.
Import JS.

Definition headers := list (str * str).

Definition lower (c : N) : N :=
  if (65 <=? c) && (c <=? 90) then c + 32 else c.

(** Header names compare without regard to ASCII case. *)
Definition name_eqb (a b : str) : bool :=
  str_eqb (map lower a) (map lower b).

(** [get(name)]: [null] when no header has that name, else the values of
    all headers of that name joined by a comma and a space. *)
Definition get (name : str) (hs : headers) : option str :=
  match filter (fun h => name_eqb name (fst h)) hs with
  | [] => None
  | vs => Some (join (lit ", ") (map snd vs))
  end.

(** [Response.ok]. *)
Definition ok_status (status : N) : bool :=
  (200 <=? status) && (status <=? 299).

End Http.

(* ================================================================== *)
(** ** The client orchestrator ([frontend/script.js]) *)

Module Frontend.
Import JS.

(** *** The page the script runs in *)

Record element := { value : str }.

(** An [input] descendant of the hardware-provider group. *)
Record checkbox := {
  cb_name : str;
  cb_checked : bool;
  cb_value : str
}.

(** What the click handler reads: the token in local storage and the form
    elements looked up by [el] when the script started ([None] for an
    element that is not in the document). *)
Record page := {
  access_token : option str;
  clientNameEl : option element;
  industrySelect : option element;
  industryCustomEl : option element;
  deploymentEl : option element;
  proposalTypeEl : option element;
  requirementsEl : option element;
  boqTextEl : option element;
  hwprovGroupEl : option (list checkbox)
}.

(** The trigger control. *)
Record button := {
  disabled : bool;
  textContent : str
}.

(** *** The network, as the handler sees it *)

Record response := {
  status : N;
  resp_headers : Http.headers;
  text_result : settled str;
  blob_result : settled bytes
}.

(** One trigger awaits the request and then the body; [ticks_*] is the
    number of times the 1200 ms interval fires during each wait. *)
Record network := {
  fetch_result : settled response;
  ticks_request : nat;
  ticks_body : nat
}.

(** *** The wire payload *)

Record payload := {
  customer_name : str;
  industry : str;
  deployment_type : str;
  proposal_type : str;
  hardware_choice : str;
  requirements_text : str;
  client_requirements : str;
  client_boq : str;
  boq_text : str
}.

(** *** Effects *)

Inductive event :=
| Toast (msg : str)
| Alert (msg : str)
| Navigate (href : str)
| Fetch (url : str) (hdrs : Http.headers) (body : payload)
| ShowProgress (msg : str)
| SetPhase (msg : str)
| DoneProgress (ok : bool)
| SetInterval (ms : N)
| ClearInterval
| Download (filename : str) (data : bytes).

(** The mutable state one run of the handler touches: the button, whether
    its phase timer is armed, the timer's counter [idx], and what has been
    done to the outside so far. *)
Record ui := {
  generateBtn : button;
  phaseTimer : bool;
  idx : nat;
  trace : list event
}.

(** A computation either completes or throws, and updates the state. *)
Inductive completion (A : Type) :=
| Normal (a : A)
| Throw (e : error).
Arguments Normal {A} a.
Arguments Throw {A} e.

Definition M (A : Type) : Type := ui -> completion A * ui.

Definition ret {A} (a : A) : M A := fun s => (Normal a, s).

Definition bind {A B} (m : M A) (k : A -> M B) : M B :=
  fun s =>
    match m s with
    | (Normal a, s') => k a s'
    | (Throw e, s') => (Throw e, s')
    end.

Definition throw {A} (e : error) : M A := fun s => (Throw e, s).

Notation "x <- m ;; k" := (bind m (fun x => k))
  (at level 61, m at next level, right associativity).
Notation "m ;; k" := (bind m (fun _ => k))
  (at level 61, right associativity).

(** [try { body } catch (err) { handler } finally { fin }]: [fin] runs on
    every way out of [body] and of [handler]. *)
Definition try_catch_finally (body : M unit) (handler : error -> M unit)
    (fin : M unit) : M unit :=
  fun s =>
    match body s with
    | (Normal _, s1) => fin s1
    | (Throw e, s1) =>
        match handler e s1 with
        | (Normal _, s2) => fin s2
        | (Throw e', s2) =>
            match fin s2 with
            | (Normal _, s3) => (Throw e', s3)
            | (Throw e'', s3) => (Throw e'', s3)
            end
        end
    end.

Definition await {A} (r : settled A) : M A :=
  match r with
  | Resolves a => ret a
  | Rejects e => throw e
  end.

Definition emit (e : event) : M unit :=
  fun s => (Normal tt,
            {| generateBtn := generateBtn s; phaseTimer := phaseTimer s;
               idx := idx s; trace := trace s ++ [e] |}).

Definition set_disabled (b : bool) : M unit :=
  fun s => (Normal tt,
            {| generateBtn := {| disabled := b;
                                 textContent := textContent (generateBtn s) |};
               phaseTimer := phaseTimer s; idx := idx s; trace := trace s |}).

Definition get_textContent : M str :=
  fun s => (Normal (textContent (generateBtn s)), s).

Definition set_textContent (t : str) : M unit :=
  fun s => (Normal tt,
            {| generateBtn := {| disabled := disabled (generateBtn s);
                                 textContent := t |};
               phaseTimer := phaseTimer s; idx := idx s; trace := trace s |}).

(** *** Auth helpers *)

Definition getToken (pg : page) : str := opt_or_else (access_token pg) [].

Definition isAuthed (pg : page) : bool := truthy (getToken pg).

Definition authHeaders (pg : page) (h : Http.headers) : Http.headers :=
  let token := getToken pg in
  if truthy token then h ++ [(lit "Authorization", lit "Bearer " ++ token)]
  else h.

(** [toast] hands the message to the page's own [window.toast] when there
    is one and to the console otherwise; either way it is recorded as one
    event, and a page-provided [window.toast] is taken not to throw. *)
Definition toast (msg : str) : M unit := emit (Toast msg).

Definition alert (msg : str) : M unit := emit (Alert msg).

Definition navigate (href : str) : M unit := emit (Navigate href).

Definition handle401 (resp : response) : M bool :=
  if status resp =? 401 then
    toast (lit "Session expired or not logged in. Please login.") ;;
    navigate (lit "login.html") ;;
    ret true
  else ret false.

(** *** Progress feedback *)

(** U+2026, the ellipsis that ends the phase labels. *)
Definition ellipsis : str := [8230].

Definition showProgress (msg : str) : M unit := emit (ShowProgress msg).

Definition setPhase (msg : str) : M unit := emit (SetPhase msg).

(** The three progress functions write to optional elements of the page;
    each call is one event, and what a call does to the elements that
    exist is [ProgressUI.render].  The 1200 ms time-out with which
    [doneProgress] hides the indicator again is cosmetic and not
    recorded. *)
Definition doneProgress (ok : bool) : M unit := emit (DoneProgress ok).

Definition phases : list str :=
  [ lit "Drafting sections" ++ ellipsis;
    lit "Calling AI agents" ++ ellipsis;
    lit "Formatting DOCX" ++ ellipsis;
    lit "Finalizing" ++ ellipsis ].

Definition setInterval : M unit :=
  fun s => (Normal tt,
            {| generateBtn := generateBtn s; phaseTimer := true;
               idx := 0; trace := trace s ++ [SetInterval 1200] |}).

Definition clearInterval : M unit :=
  fun s => (Normal tt,
            {| generateBtn := generateBtn s; phaseTimer := false;
               idx := idx s; trace := trace s ++ [ClearInterval] |}).

(** One firing of the interval callback; a cleared timer does not fire. *)
Definition tick : M unit :=
  fun s =>
    if phaseTimer s then
      (Normal tt,
       {| generateBtn := generateBtn s; phaseTimer := true;
          idx := S (idx s);
          trace := trace s ++
                   [SetPhase (nth (Nat.modulo (idx s) (List.length phases))
                                  phases [])] |})
    else (Normal tt, s).

Fixpoint ticks (n : nat) : M unit :=
  match n with
  | O => ret tt
  | S n' => tick ;; ticks n'
  end.

(** *** Form readers *)

(** [(e && e.value) || d]. *)
Definition value_or (e : option element) (d : str) : str :=
  opt_or_else (option_map value e) d.

Definition getSelectedHardwareProviders (pg : page) : str :=
  match hwprovGroupEl pg with
  | None => []
  | Some inputs =>
      let checked :=
        filter (fun i => str_eqb (cb_name i) (lit "hwprov") && cb_checked i)
               inputs in
      let vals := filter truthy (map (fun i => trim (cb_value i)) checked) in
      join (lit ", ") vals
  end.

Definition industryVal (pg : page) : str :=
  match industrySelect pg with
  | Some sel =>
      if str_eqb (value sel) (lit "other")
      then value_or (industryCustomEl pg) []
      else value sel
  | None => []
  end.

(** The mapping of the deployment label to the literal the API expects. *)
Definition apiDeployment (rawDeployment : str) : str :=
  if str_eqb rawDeployment (lit "onsite") then lit "on-premise"
  else if str_eqb rawDeployment (lit "dark_site") then lit "dark-site"
  else or_else rawDeployment (lit "hybrid").

Definition build_payload (pg : page) : payload :=
  let clientName := value_or (clientNameEl pg) (lit "Client") in
  let reqText := value_or (requirementsEl pg) [] in
  let rawDeployment := value_or (deploymentEl pg) [] in
  let proposalTypeVal := value_or (proposalTypeEl pg) (lit "detailed") in
  let hwSelected := getSelectedHardwareProviders pg in
  let boqVal := value_or (boqTextEl pg) [] in
  {| customer_name := clientName;
     industry := or_else (industryVal pg) [];
     deployment_type := apiDeployment rawDeployment;
     proposal_type := proposalTypeVal;
     hardware_choice := or_else hwSelected (lit "Nutanix");
     requirements_text := reqText;
     client_requirements := reqText;
     client_boq := boqVal;
     boq_text := boqVal |}.

Definition API_BASE : str := [].

(** The replace that deletes a trailing run of slashes. *)
Fixpoint drop_slashes (s : str) : str :=
  match s with
  | 47 :: t => drop_slashes t
  | _ => s
  end.

Definition strip_trailing_slashes (s : str) : str :=
  rev (drop_slashes (rev s)).

Definition generate_url : str :=
  strip_trailing_slashes API_BASE ++ lit "/api/generate_proposal".

(** *** File name of the download *)

(** [[^;]+], greedy. *)
Fixpoint until_semicolon (s : str) : str :=
  match s with
  | [] => []
  | c :: t => if c =? 59 then [] else c :: until_semicolon t
  end.

(** The pattern [filename\*?=([^;]+)] under the [i] flag, tried at the
    start of [s]; the result is capture group 1. *)
Definition filename_here (s : str) : option str :=
  match match_ci (lit "filename") s with
  | None => None
  | Some r =>
      let after_equals :=
        match r with
        | 42 :: 61 :: t => Some t
        | 61 :: t => Some t
        | _ => None
        end in
      match after_equals with
      | None => None
      | Some t =>
          match until_semicolon t with
          | [] => None
          | g => Some g
          end
      end
  end.

(** [cd.match(...)]: the leftmost position at which the pattern matches. *)
Fixpoint filename_match (s : str) : option str :=
  match filename_here s with
  | Some g => Some g
  | None =>
      match s with
      | [] => None
      | _ :: t => filename_match t
      end
  end.

(** [a || b] on two values that may be [null]. *)
Definition opt_or (a b : option str) : option str :=
  match a with
  | Some s => if truthy s then a else b
  | None => b
  end.

Definition uri_error : error :=
  {| err_name := lit "URIError"; err_message := lit "URI malformed" |}.

(** Lines 193-198: the default name, replaced by the header's when the
    pattern matches; a malformed escape makes [decodeURIComponent] throw. *)
Definition derive_filename (hs : Http.headers) : M str :=
  let cd := opt_or_else
              (opt_or (Http.get (lit "Content-Disposition") hs)
                      (Http.get (lit "content-disposition") hs)) [] in
  let m := if truthy cd then filename_match cd else None in
  match m with
  | Some m1 =>
      if truthy m1 then
        match decodeURIComponent
                (remove_quotes (remove_first_ci (lit "UTF-8''") m1)) with
        | Decoded f => ret f
        | URIError => throw uri_error
        end
      else ret (lit "proposal.docx")
  | None => ret (lit "proposal.docx")
  end.

(** *** The click listener of the trigger control *)

(** [Error.prototype.toString]. *)
Definition err_toString (e : error) : str :=
  if negb (truthy (err_name e)) then err_message e
  else if negb (truthy (err_message e)) then err_name e
  else err_name e ++ lit ": " ++ err_message e.

(** [err.message || err], as string concatenation renders it. *)
Definition err_display (e : error) : str :=
  if truthy (err_message e) then err_message e else err_toString e.

Definition new_Error (msg : str) : error :=
  {| err_name := lit "Error"; err_message := msg |}.

(** The [try] block from the moment the request is on the wire: the wait
    for the response and what is done with it. *)
Definition settle (net : network) (oldLabel : str) : M unit :=
  ticks (ticks_request net) ;;
  resp <- await (fetch_result net) ;;
  unauthorised <- handle401 resp ;;
  if unauthorised : bool then
    clearInterval ;;
    doneProgress false ;;
    set_disabled false ;;
    set_textContent oldLabel
  else if negb (Http.ok_status (status resp)) then
    ticks (ticks_body net) ;;
    let text := match text_result resp with
                | Resolves t => t
                | Rejects _ => lit "<no body>"
                end in
    throw (new_Error (lit "Generate API error " ++ of_num (status resp)
                      ++ lit ": " ++ slice0 500 text))
  else
    setPhase (lit "Downloading" ++ ellipsis) ;;
    ticks (ticks_body net) ;;
    blob <- await (blob_result resp) ;;
    filename <- derive_filename (resp_headers resp) ;;
    emit (Download filename blob) ;;
    doneProgress true ;;
    toast (lit "Proposal downloaded").

(** The [try] block: the one [fetch] of the handler, then [settle]. *)
Definition request (pg : page) (net : network) (oldLabel : str) : M unit :=
  emit (Fetch generate_url
              (authHeaders pg [(lit "Content-Type", lit "application/json")])
              (build_payload pg)) ;;
  settle net oldLabel.

Definition click (pg : page) (net : network) : M unit :=
  if negb (isAuthed pg) then
    toast (lit "Please login to generate.") ;;
    navigate (lit "login.html")
  else
    let reqText := value_or (requirementsEl pg) [] in
    if negb (truthy (trim reqText)) then
      alert (lit "Please enter client requirements before generating.")
    else
      set_disabled true ;;
      oldLabel <- get_textContent ;;
      set_textContent (lit "Generating...") ;;
      showProgress (lit "Preparing content" ++ ellipsis) ;;
      setInterval ;;
      try_catch_finally
        (request pg net oldLabel)
        (fun err =>
           doneProgress false ;;
           alert (lit "Generate failed: " ++ err_display err))
        (clearInterval ;;
         set_disabled false ;;
         set_textContent oldLabel).

(** A trigger on a page whose button shows [b], nothing done yet. *)
Definition start (b : button) : ui :=
  {| generateBtn := b; phaseTimer := false; idx := 0; trace := [] |}.

Definition run (pg : page) (net : network) (b : button) : ui :=
  snd (click pg net (start b)).

End Frontend.

(* ================================================================== *)
(** ** The Express server ([server.js]): catalog gateway and generation
       proxy *)

Module Server.
Import JS.

(** A row of the catalog table, columns as line 33 of the source names
    them; a column may be [null]. *)
Record row := {
  category_name : option str;
  service_name : option str;
  positioning : option str;
  description : option str;
  price_man_day : option N;
  duration_days : option N;
  default_days : option N
}.

(** What a handler hands to [res.json] or [res.send]. *)
Inductive body :=
| Json_error (msg : str)
| Json_null
| Json_row (r : row)
| Buffer (b : bytes).

(** The reply of a handler: the status, the headers the handler sets
    itself with [res.set], as [res.set] stores them, and the body.  What
    [res.json], [res.send] and Node add on their own account
    (Content-Length, ETag, the content type of [res.json]) is not part of
    the record. *)
Record reply := {
  res_status : N;
  res_headers : Http.headers;
  res_body : body
}.

(** [res.status(n).json(...)] and [res.json(...)], whose status is 200. *)
Definition status_json (n : N) (b : body) : reply :=
  {| res_status := n; res_headers := []; res_body := b |}.

Definition json (b : body) : reply := status_json 200 b.

(** *** Catalog gateway: service details *)

(** How the backing store can fail: the client returns an [error] next to
    [data], or the call throws. *)
Inductive fault :=
| Returns_error
| Throws.

Record store := {
  tables : str -> list row;
  store_fault : option fault
}.

(** The value the awaited query resolves to. *)
Record answer := {
  data : option (list row);
  query_error : bool
}.

Section Catalog.

(** The store's [ILIKE] operator: does a column value match a pattern? *)
Variable ilike : str -> str -> bool.

Definition ilike_service_name (pattern : str) (rows : list row) : list row :=
  filter (fun r => match service_name r with
                   | Some n => ilike n pattern
                   | None => false
                   end) rows.

Definition limit (n : nat) (rows : list row) : list row := firstn n rows.

(** [from(table).select(star).ilike(service_name, svc).limit(1)]. *)
Definition query_service (db : store) (table svc : str) : settled answer :=
  match store_fault db with
  | Some Throws =>
      Rejects {| err_name := lit "Error"; err_message := lit "fetch failed" |}
  | Some Returns_error =>
      Resolves {| data := None; query_error := true |}
  | None =>
      Resolves {| data := Some (limit 1 (ilike_service_name svc (tables db table)));
                  query_error := false |}
  end.

(** GET /api/service_details.  [svc] is [req.query.service_name], a
    string or [undefined], and [SUPABASE_TABLE] the environment variable of
    that name. *)
Definition service_details (SUPABASE_TABLE : option str) (db : store)
    (svc : option str) : reply :=
  match svc with
  | None => status_json 400 (Json_error (lit "service_name required"))
  | Some svc =>
      if negb (truthy svc) then
        status_json 400 (Json_error (lit "service_name required"))
      else
        let table := opt_or_else SUPABASE_TABLE (lit "proposals") in
        match query_service db table svc with
        | Rejects _ => status_json 500 (Json_error (lit "Internal error"))
        | Resolves a =>
            if query_error a then
              status_json 500 (Json_error (lit "Supabase error"))
            else
              match data a with
              | None => json Json_null
              | Some [] => json Json_null
              | Some (r :: _) => json (Json_row r)
              end
        end
  end.

End Catalog.

(** *** [res.set] on a Content-Type

    Express stores any other header as given.  For [Content-Type] a value
    that names no charset gets the charset its media type calls for
    appended (Express 4, [response.js], with the [mime] module's
    [charsets.lookup]). *)

(** Case-sensitive: the rest of [s] after the prefix [p]. *)
Fixpoint strip_prefix (p s : str) : option str :=
  match p, s with
  | [], _ => Some s
  | _ :: _, [] => None
  | a :: p', b :: s' => if a =? b then strip_prefix p' s' else None
  end.

Definition starts_with (p s : str) : bool :=
  match strip_prefix p s with
  | Some _ => true
  | None => false
  end.

(** The pattern [;\s*charset\s*=] tried at the start of [s]. *)
Definition charset_here (s : str) : bool :=
  match s with
  | 59 :: t =>
      match strip_prefix (lit "charset") (trimStart t) with
      | Some r =>
          match trimStart r with
          | 61 :: _ => true
          | _ => false
          end
      | None => false
      end
  | _ => false
  end.

(** [charsetRegExp.test(value)]. *)
Fixpoint names_charset (value : str) : bool :=
  charset_here value ||
  match value with
  | [] => false
  | _ :: t => names_charset t
  end.

(** [value.split(semicolon)[0]]. *)
Fixpoint media_type (value : str) : str :=
  match value with
  | [] => []
  | c :: t => if c =? 59 then [] else c :: media_type t
  end.

(** [mime.charsets.lookup]: UTF-8 for a type that starts with [text/],
    [application/javascript] or [application/json], none otherwise. *)
Definition textual (type : str) : bool :=
  starts_with (lit "text/") type ||
  starts_with (lit "application/javascript") type ||
  starts_with (lit "application/json") type.

(** What [res.set] stores for [Content-Type]. *)
Definition res_set_content_type (value : str) : str :=
  if names_charset value then value
  else if textual (media_type value) then value ++ lit "; charset=utf-8"
  else value.

(** *** Generation proxy *)

(** The response of the downstream generation engine, as node-fetch
    presents it. *)
Record downstream_response := {
  r_status : N;
  r_headers : Http.headers;
  r_buffer : settled bytes
}.

(** A request the proxy sends downstream. *)
Record outbound := {
  out_url : str;
  out_method : str;
  out_headers : Http.headers;
  out_body : str
}.

Section Proxy.

(** The parsed request body ([req.body]) and its serialisation. *)
Variable json_value : Type.
Variable JSON_stringify : json_value -> str.

(** [process.env.NAME || null]. *)
Definition env_or_null (v : option str) : option str :=
  match v with
  | Some s => if truthy s then Some s else None
  | None => None
  end.

(** The [try] block once the URL is known: the request sent and, unless
    something throws, the reply. *)
Definition forward (url : str) (req_body : json_value)
    (down : settled downstream_response) : list outbound * settled reply :=
  let call := {| out_url := url;
                 out_method := lit "POST";
                 out_headers := [(lit "Content-Type", lit "application/json")];
                 out_body := JSON_stringify req_body |} in
  match down with
  | Rejects e => ([call], Rejects e)
  | Resolves r =>
      match r_buffer r with
      | Rejects e => ([call], Rejects e)
      | Resolves buffer =>
          let content_type :=
            opt_or_else (Http.get (lit "content-type") (r_headers r))
                        (lit "application/octet-stream") in
          let set1 :=
            [(lit "Content-Type", res_set_content_type content_type)] in
          let set2 :=
            match Http.get (lit "content-disposition") (r_headers r) with
            | Some cd =>
                if truthy cd then set1 ++ [(lit "Content-Disposition", cd)]
                else set1
            | None => set1
            end in
          ([call], Resolves {| res_status := r_status r;
                               res_headers := set2;
                               res_body := Buffer buffer |})
      end
  end.

(** POST /api/generate_proposal: the requests sent downstream and the
    reply to the caller. *)
Definition generate_proposal (GENERATE_URL : option str)
    (req_body : json_value) (down : settled downstream_response)
    : list outbound * reply :=
  match env_or_null GENERATE_URL with
  | None =>
      ([], status_json 501
             (Json_error (lit "No generate endpoint configured on server (set GENERATE_URL in .env)")))
  | Some url =>
      match forward url req_body down with
      | (calls, Resolves rep) => (calls, rep)
      | (calls, Rejects _) =>
          (calls, status_json 500 (Json_error (lit "Failed to generate proposal")))
      end
  end.

End Proxy.

Arguments forward {json_value} JSON_stringify url req_body down.
Arguments generate_proposal {json_value} JSON_stringify GENERATE_URL req_body down.

End Server.

(* ================================================================== *)
(** ** Notions the properties are stated with *)

Module Notions.
Import JS Frontend.

(** The requirements text the handler reads. *)
Definition reqText (pg : page) : str := value_or (requirementsEl pg) [].

(** Empty or made of white space only. *)
Definition requirements_blank (pg : page) : bool :=
  forallb is_space (reqText pg).

(** The two guards passed: the trigger reaches the network. *)
Definition dispatches (pg : page) : bool :=
  isAuthed pg && negb (requirements_blank pg).

Definition is_fetch (e : event) : bool :=
  match e with
  | Fetch _ _ _ => true
  | _ => false
  end.

(** The files a trace hands to the browser's download. *)
Fixpoint downloads (tr : list event) : list (str * bytes) :=
  match tr with
  | [] => []
  | Download f d :: rest => (f, d) :: downloads rest
  | _ :: rest => downloads rest
  end.

(** The labels the interval callback shows in [n] firings from counter
    value [i] on. *)
Definition tick_events (n i : nat) : list event :=
  map (fun j => SetPhase (nth (Nat.modulo j (List.length phases)) phases []))
      (seq i n).

(** The request a trigger on this page puts on the wire. *)
Definition the_request (pg : page) : event :=
  Fetch generate_url
        (authHeaders pg [(lit "Content-Type", lit "application/json")])
        (build_payload pg).

(** Every request in a trace is the one request of this page: the
    generation endpoint, the bearer token, the payload built from the
    form, sent only past both guards. *)
Definition own_request (pg : page) (e : event) : Prop :=
  match e with
  | Fetch u h p =>
      u = generate_url /\
      h = authHeaders pg [(lit "Content-Type", lit "application/json")] /\
      p = build_payload pg /\
      dispatches pg = true
  | _ => True
  end.

(** The UI label of the deployment selector. *)
Definition deployment_label (pg : page) : str := value_or (deploymentEl pg) [].

(** The values of the checked hardware-provider options, as the form
    holds them. *)
Definition checked_values (pg : page) : list str :=
  match hwprovGroupEl pg with
  | None => []
  | Some inputs =>
      map cb_value
          (filter (fun i => str_eqb (cb_name i) (lit "hwprov") && cb_checked i)
                  inputs)
  end.

(** The same values as the script keeps them: trimmed, blank ones
    dropped. *)
Definition selected_values (pg : page) : list str :=
  filter truthy (map trim (checked_values pg)).

(** The hardware choice in the words of the specification: the checked
    values joined by commas, or [Nutanix] when nothing is checked. *)
Definition spec_hardware_choice (pg : page) : str :=
  match checked_values pg with
  | [] => lit "Nutanix"
  | vs => join (lit ", ") vs
  end.

(** The header of the specification's example, with its double quotes
    (code unit 34). *)
Definition quoted_disposition (name : str) : str :=
  lit "attachment; filename=" ++ [34] ++ name ++ [34].

(** A file name free of semicolons, apostrophes, double quotes and
    per-cent signs: the characters the parsing of lines 195-197 gives a
    meaning to. *)
Definition plain_name (name : str) : bool :=
  forallb (fun c => negb ((c =? 59) || (c =? 39) || (c =? 34) || (c =? 37)))
          name.

Definition validation_prompt : str :=
  lit "Please enter client requirements before generating.".

(** A computation only adds to the trace, and every event it adds
    satisfies [P]. *)
Definition emits (P : event -> Prop) {A} (m : M A) : Prop :=
  forall s, exists l, trace (snd (m s)) = trace s ++ l /\ Forall P l.

Definition any_event (e : event) : Prop := True.

End Notions.

(* ================================================================== *)
(** ** Sample inputs, used where a property is exercised on a concrete
       page *)

Module Samples.
Import JS Frontend Server.

Definition field (s : string) : option element := Some {| value := lit s |}.

Definition option_of (name : string) (checked : bool) (v : string) : checkbox :=
  {| cb_name := lit name; cb_checked := checked; cb_value := lit v |}.

(** A logged-in user with a filled form. *)
Definition filled_page : page :=
  {| access_token := Some (lit "tok-1");
     clientNameEl := Some {| value := [] |};
     industrySelect := field "other";
     industryCustomEl := field "Retail";
     deploymentEl := field "onsite";
     proposalTypeEl := field "short";
     requirementsEl := field "Three-node cluster";
     boqTextEl := field "3x NX-1175S";
     hwprovGroupEl := Some [ option_of "hwprov" true "Dell";
                             option_of "hwprov" false "HPE";
                             option_of "hwprov" true "Lenovo" ] |}.

(** The same form with a single checked option whose value ends in a
    space. *)
Definition padded_option_page : page :=
  {| access_token := Some (lit "tok-1");
     clientNameEl := field "Acme";
     industrySelect := field "Retail";
     industryCustomEl := None;
     deploymentEl := field "remote";
     proposalTypeEl := field "detailed";
     requirementsEl := field "Three-node cluster";
     boqTextEl := None;
     hwprovGroupEl := Some [ option_of "hwprov" true "Dell " ] |}.

(** Logged in, requirements made of spaces and a line break. *)
Definition blank_page : page :=
  {| access_token := Some (lit "tok-1");
     clientNameEl := field "Acme";
     industrySelect := None;
     industryCustomEl := None;
     deploymentEl := None;
     proposalTypeEl := None;
     requirementsEl := Some {| value := [32; 10; 32] |};
     boqTextEl := None;
     hwprovGroupEl := None |}.

(** No token in local storage, and nothing typed in the requirements. *)
Definition anonymous_blank_page : page :=
  {| access_token := None;
     clientNameEl := field "Acme";
     industrySelect := None;
     industryCustomEl := None;
     deploymentEl := None;
     proposalTypeEl := None;
     requirementsEl := Some {| value := [] |};
     boqTextEl := None;
     hwprovGroupEl := None |}.

Definition idle_button : button :=
  {| disabled := false; textContent := lit "Generate Proposal" |}.

Definition docx : bytes := [80; 75; 3; 4].

Definition named_response : response :=
  {| status := 200;
     resp_headers :=
       [ (lit "content-type", lit "application/octet-stream");
         (lit "content-disposition",
          Notions.quoted_disposition (lit "Proposal_X.docx")) ];
     text_result := Resolves [];
     blob_result := Resolves docx |}.

Definition unnamed_response : response :=
  {| status := 200;
     resp_headers := [ (lit "content-type", lit "application/octet-stream") ];
     text_result := Resolves [];
     blob_result := Resolves docx |}.

Definition expired_response : response :=
  {| status := 401;
     resp_headers := [];
     text_result := Resolves (lit "expired");
     blob_result := Resolves [] |}.

Definition delivers (r : response) : network :=
  {| fetch_result := Resolves r; ticks_request := 5; ticks_body := 1 |}.

Definition offline : network :=
  {| fetch_result := Rejects {| err_name := lit "TypeError";
                               err_message := lit "Failed to fetch" |};
     ticks_request := 2; ticks_body := 0 |}.

(** A catalog with two rows whose names differ in case only. *)
Definition catalog_row (cat svc : string) (days : N) : row :=
  {| category_name := Some (lit cat);
     service_name := Some (lit svc);
     positioning := None;
     description := None;
     price_man_day := Some 1000;
     duration_days := Some days;
     default_days := None |}.

Definition catalog : store :=
  {| tables := fun _ => [ catalog_row "Cloud" "Migration" 5;
                          catalog_row "Cloud" "MIGRATION" 9;
                          catalog_row "Data" "Backup" 2 ];
     store_fault := None |}.

(** Pattern matching without wildcards: equality up to ASCII case. *)
Definition same_name (column pattern : str) : bool :=
  Http.name_eqb column pattern.

Definition engine_response : downstream_response :=
  {| r_status := 201;
     r_headers :=
       [ (lit "Content-Type", lit "application/vnd.openxmlformats");
         (lit "Content-Disposition",
          Notions.quoted_disposition (lit "Proposal_X.docx")) ];
     r_buffer := Resolves docx |}.


End Samples.

(* ================================================================== *)
(** ** The rest of the script: start-up and the clear button *)

Module Startup.
Import JS Frontend.

(** What the [DOMContentLoaded] callback leaves behind in the window: the
    [__pso_init] flag and the click listeners it has attached. *)
Record shell := {
  pso_init : bool;
  generate_listeners : nat;
  clear_listeners : nat
}.

Definition fresh : shell :=
  {| pso_init := false; generate_listeners := 0; clear_listeners := 0 |}.

(** The alert of line 99; its dash is U+2013. *)
Definition button_missing : str :=
  lit "generateBtn not found " ++ [8211] ++ lit " check index.html id.".

(** Lines 2-228.  [has_generateBtn] and [has_hwprovClearBtn] say whether
    [el] finds the two buttons; the events are the alert and the toast the
    callback may show. *)
Definition init (pg : page) (has_generateBtn has_hwprovClearBtn : bool)
    (w : shell) : shell * list event :=
  if pso_init w then (w, [])
  else
    let clears :=
      match hwprovGroupEl pg with
      | Some _ => if has_hwprovClearBtn then S (clear_listeners w)
                  else clear_listeners w
      | None => clear_listeners w
      end in
    if negb has_generateBtn then
      ({| pso_init := true;
          generate_listeners := generate_listeners w;
          clear_listeners := clears |},
       [Alert button_missing])
    else
      ({| pso_init := true;
          generate_listeners := S (generate_listeners w);
          clear_listeners := clears |},
       if negb (isAuthed pg)
       then [Toast (lit "You are not logged in. Login to generate.")]
       else []).

(** The callback run [n] times in a row on the same page. *)
Fixpoint init_times (n : nat) (pg : page) (has_generateBtn has_hwprovClearBtn : bool)
    (w : shell) : shell :=
  match n with
  | O => w
  | S n' => init_times n' pg has_generateBtn has_hwprovClearBtn
              (fst (init pg has_generateBtn has_hwprovClearBtn w))
  end.

(** Lines 89-94: the clear button unchecks every input of the group whose
    name is [hwprov]. *)
Definition uncheck (i : checkbox) : checkbox :=
  if str_eqb (cb_name i) (lit "hwprov")
  then {| cb_name := cb_name i; cb_checked := false; cb_value := cb_value i |}
  else i.

Definition clear_click (pg : page) : page :=
  {| access_token := access_token pg;
     clientNameEl := clientNameEl pg;
     industrySelect := industrySelect pg;
     industryCustomEl := industryCustomEl pg;
     deploymentEl := deploymentEl pg;
     proposalTypeEl := proposalTypeEl pg;
     requirementsEl := requirementsEl pg;
     boqTextEl := boqTextEl pg;
     hwprovGroupEl := option_map (map uncheck) (hwprovGroupEl pg) |}.

End Startup.

(* ================================================================== *)
(** ** The progress indicator on the page *)

Module ProgressUI.
Import JS Frontend.

(** The three optional elements of lines 52-54, each [None] when it is
    not in the document: the [display] style of the wrapper, whether the
    bar has the classes [ok] and [err], the text of the label. *)
Record indicator := {
  wrap_display : option str;
  bar_classes : option (bool * bool);
  lab_text : option str
}.

(** [if (el) el.property = v]. *)
Definition set_if {A} (el : option A) (v : A) : option A :=
  match el with
  | Some _ => Some v
  | None => None
  end.

(** Lines 56-61. *)
Definition showProgress_on (msg : str) (d : indicator) : indicator :=
  {| wrap_display := set_if (wrap_display d) (lit "flex");
     bar_classes := set_if (bar_classes d) (false, false);
     lab_text := set_if (lab_text d) (or_else msg (lit "Preparing" ++ ellipsis)) |}.

(** Lines 62-64. *)
Definition setPhase_on (msg : str) (d : indicator) : indicator :=
  {| wrap_display := wrap_display d;
     bar_classes := bar_classes d;
     lab_text := set_if (lab_text d) msg |}.

(** Lines 65-70; the time-out of lines 71-74, which hides the indicator
    1200 ms later, is outside one run of the handler. *)
Definition doneProgress_on (ok : bool) (d : indicator) : indicator :=
  {| wrap_display := wrap_display d;
     bar_classes := set_if (bar_classes d) (ok, negb ok);
     lab_text := set_if (lab_text d)
                        (if ok then lit "Completed" else lit "Failed") |}.

(** What a call recorded in the trace does to the indicator. *)
Definition render (d : indicator) (e : event) : indicator :=
  match e with
  | ShowProgress msg => showProgress_on msg d
  | SetPhase msg => setPhase_on msg d
  | DoneProgress ok => doneProgress_on ok d
  | _ => d
  end.

(** The indicator after a trace. *)
Definition rendered (tr : list event) (d : indicator) : indicator :=
  fold_left render tr d.

(** The text a call writes to the label, when there is a label. *)
Definition written (e : event) : list str :=
  match e with
  | ShowProgress msg => [or_else msg (lit "Preparing" ++ ellipsis)]
  | SetPhase msg => [msg]
  | DoneProgress ok => [if ok then lit "Completed" else lit "Failed"]
  | _ => []
  end.

(** The successive texts of the label during a trace: none on a page
    without the label element. *)
Definition label_history (lab : option str) (tr : list event) : list str :=
  match lab with
  | Some _ => flat_map written tr
  | None => []
  end.

(** The label shown by the [k]-th firing of the phase timer. *)
Definition phase_at (k : nat) : str := nth (Nat.modulo k 4) phases [].

End ProgressUI.

(* ================================================================== *)
(** ** The rest of the server: catalog views and the suggestion proxy *)

Module CatalogApi.
Import JS Server.

(** [Array.from(new Set(xs))]: the elements in the order of their first
    occurrence. *)
Definition set_add (acc : list str) (x : str) : list str :=
  if existsb (str_eqb x) acc then acc else acc ++ [x].

Definition new_Set (xs : list str) : list str := fold_left set_add xs [].

(** [xs.filter(Boolean)] on values that may be [null]. *)
Fixpoint filter_Boolean (xs : list (option str)) : list str :=
  match xs with
  | [] => []
  | Some s :: rest => if truthy s then s :: filter_Boolean rest
                      else filter_Boolean rest
  | None :: rest => filter_Boolean rest
  end.

(** [v || null] on a string and on a number. *)
Definition str_or_null (v : option str) : option str :=
  match v with
  | Some s => if truthy s then Some s else None
  | None => None
  end.

Definition num_or_null (v : option N) : option N :=
  match v with
  | Some n => if n =? 0 then None else Some n
  | None => None
  end.

(** A service as GET /api/catalog reports it. *)
Record service_view := {
  v_category_name : str;
  v_service_name : str;
  v_positioning : option str;
  v_description : option str;
  v_price_man_day : option N;
  v_duration_days : option N;
  v_default_days : option N
}.

Definition view (d : row) : service_view :=
  {| v_category_name := opt_or_else (category_name d) [];
     v_service_name := opt_or_else (service_name d) [];
     v_positioning := str_or_null (positioning d);
     v_description := str_or_null (description d);
     v_price_man_day := num_or_null (price_man_day d);
     v_duration_days := num_or_null (duration_days d);
     v_default_days := num_or_null (default_days d) |}.

Inductive api_body :=
| Api_error (msg : str)
| Api_catalog (categories : list str) (services : list service_view)
| Api_categories (categories : list str)
| Api_services (services : list str).

Record api_reply := {
  api_status : N;
  api_body_of : api_body
}.

(** The store answers a query whose result, were there no fault, is
    [rows]. *)
Definition answer_with (db : store) (rows : list row) : settled answer :=
  match store_fault db with
  | Some Throws =>
      Rejects {| err_name := lit "Error"; err_message := lit "fetch failed" |}
  | Some Returns_error => Resolves {| data := None; query_error := true |}
  | None => Resolves {| data := Some rows; query_error := false |}
  end.

(** [data || []]. *)
Definition data_or_empty (a : answer) : list row :=
  match data a with
  | Some rows => rows
  | None => []
  end.

(** The shape the three list handlers share: [try], the query, the
    [error] test, the reply built from the rows. *)
Definition respond (q : settled answer) (build : list row -> api_body)
    : api_reply :=
  match q with
  | Rejects _ =>
      {| api_status := 500; api_body_of := Api_error (lit "Internal error") |}
  | Resolves a =>
      if query_error a then
        {| api_status := 500; api_body_of := Api_error (lit "Supabase error") |}
      else
        {| api_status := 200; api_body_of := build (data_or_empty a) |}
  end.

Definition table_name (SUPABASE_TABLE : option str) : str :=
  opt_or_else SUPABASE_TABLE (lit "proposals").

Definition category_names (rows : list row) : list str :=
  new_Set (filter_Boolean (map category_name rows)).

Definition service_names (rows : list row) : list str :=
  new_Set (filter_Boolean (map service_name rows)).

Section Ordered.

(** The store's [order(category_name, ascending)]. *)
Variable order_by_category_name : list row -> list row.

(** GET /api/catalog. *)
Definition catalog (SUPABASE_TABLE : option str) (db : store) : api_reply :=
  respond
    (answer_with db
       (order_by_category_name (tables db (table_name SUPABASE_TABLE))))
    (fun rows => Api_catalog (category_names rows) (map view rows)).

End Ordered.

(** [not(column, is, null)]. *)
Definition not_null {A} (column : row -> option A) (rows : list row)
    : list row :=
  filter (fun r => match column r with Some _ => true | None => false end) rows.

(** [eq(category_name, category)]. *)
Definition eq_category_name (category : str) (rows : list row) : list row :=
  filter (fun r => match category_name r with
                   | Some c => str_eqb c category
                   | None => false
                   end) rows.

(** GET /api/categories. *)
Definition categories (SUPABASE_TABLE : option str) (db : store) : api_reply :=
  respond
    (answer_with db
       (not_null category_name (tables db (table_name SUPABASE_TABLE))))
    (fun rows => Api_categories (category_names rows)).

(** GET /api/services; [category] is [req.query.category]. *)
Definition services (SUPABASE_TABLE : option str) (db : store)
    (category : option str) : api_reply :=
  let category := opt_or_else category [] in
  let query := not_null service_name (tables db (table_name SUPABASE_TABLE)) in
  let query := if truthy category then eq_category_name category query
               else query in
  respond (answer_with db query)
          (fun rows => Api_services (service_names rows)).

(** *** Suggestion proxy *)

Section Suggest.

Variable json_value : Type.

(** The downstream response: its status and what [json()] gives. *)
Record suggest_response := {
  p_status : N;
  p_json : settled json_value
}.

(** One call of [fetch], by its arguments: the URL and the [method],
    [body] and [headers] options.  The handler passes [req.body], the
    value [express.json()] parsed, without serialising it again, and
    [req.headers]; this is what node-fetch is handed, not what it puts on
    the wire (it sends a body that is a plain object as that object's
    string conversion, and completes the headers itself). *)
Record suggest_call := {
  sg_url : str;
  sg_method : str;
  sg_body_option : json_value;
  sg_headers_option : Http.headers
}.

Inductive suggest_body :=
| Sg_error (msg : str)
| Sg_json (j : option json_value).

Record suggest_reply := {
  sg_status : N;
  sg_body_of : suggest_body
}.

(** POST /api/suggest_services_ai_v2. *)
Definition suggest_services_ai_v2 (SUGGEST_URL : option str)
    (req_body : json_value) (req_headers : Http.headers)
    (down : settled suggest_response) : list suggest_call * suggest_reply :=
  match env_or_null SUGGEST_URL with
  | None =>
      ([], {| sg_status := 501;
              sg_body_of :=
                Sg_error (lit "No suggest endpoint configured (set SUGGEST_URL)") |})
  | Some url =>
      let call := {| sg_url := url; sg_method := lit "POST";
                     sg_body_option := req_body;
                     sg_headers_option := req_headers |} in
      match down with
      | Rejects _ =>
          ([call], {| sg_status := 500;
                      sg_body_of := Sg_error (lit "Suggest proxy failed") |})
      | Resolves proxied =>
          let j := match p_json proxied with
                   | Resolves v => Some v
                   | Rejects _ => None
                   end in
          ([call], {| sg_status := p_status proxied; sg_body_of := Sg_json j |})
      end
  end.

End Suggest.

(** *** How the catalog reports a row *)

(** [v || null] on a string column: the value when it is not empty,
    [null] otherwise. *)
Definition reported_str (column shown : option str) : Prop :=
  match column with
  | Some (c :: t) => shown = Some (c :: t)
  | _ => shown = None
  end.

(** [v || null] on a numeric column: the value when it is not 0, [null]
    otherwise. *)
Definition reported_num (column shown : option N) : Prop :=
  match column with
  | Some n => if n =? 0 then shown = None else shown = Some n
  | None => shown = None
  end.

(** [v || ''] on a name. *)
Definition reported_name (column : option str) (shown : str) : Prop :=
  match column with
  | Some n => shown = n
  | None => shown = []
  end.

Definition reports (r : row) (v : service_view) : Prop :=
  reported_name (category_name r) (v_category_name v) /\
  reported_name (service_name r) (v_service_name v) /\
  reported_str (positioning r) (v_positioning v) /\
  reported_str (description r) (v_description v) /\
  reported_num (price_man_day r) (v_price_man_day v) /\
  reported_num (duration_days r) (v_duration_days v) /\
  reported_num (default_days r) (v_default_days v).

Arguments p_status {json_value} s.
Arguments p_json {json_value} s.
Arguments Sg_error {json_value} msg.
Arguments Sg_json {json_value} j.
Arguments sg_status {json_value} s.
Arguments sg_body_of {json_value} s.
Arguments suggest_services_ai_v2 {json_value} SUGGEST_URL req_body req_headers down.

End CatalogApi.

(* ================================================================== *)
(** ** Further notions the properties are stated with *)

Module MoreNotions.
Import JS Frontend Notions.

Definition alerts (tr : list event) : list str :=
  flat_map (fun e => match e with Alert m => [m] | _ => [] end) tr.

Definition toasts (tr : list event) : list str :=
  flat_map (fun e => match e with Toast m => [m] | _ => [] end) tr.

Definition navigations (tr : list event) : list str :=
  flat_map (fun e => match e with Navigate h => [h] | _ => [] end) tr.

Definition requests (tr : list event) : list event := filter is_fetch tr.

(** The header of the extended form: [filename*=UTF-8] and two
    apostrophes, then the percent-encoded name. *)
Definition extended_disposition (encoded : str) : str :=
  lit "attachment; filename*=UTF-8''" ++ encoded.

(** Free of semicolons, apostrophes and double quotes; per-cent signs
    are allowed. *)
Definition unquoted (s : str) : bool :=
  forallb (fun c => negb ((c =? 59) || (c =? 39) || (c =? 34))) s.

(** A download happens only for a response that is a success and whose
    body was read. *)
Definition earned_download (net : network) (e : event) : Prop :=
  match e with
  | Download f d =>
      exists resp,
        fetch_result net = Resolves resp /\
        Http.ok_status (status resp) = true /\
        blob_result resp = Resolves d
  | _ => True
  end.

(** The state in which the response is awaited: button disabled and
    relabelled, timer armed, the request on the wire. *)
Definition awaiting (pg : page) : ui :=
  {| generateBtn := {| disabled := true; textContent := lit "Generating..." |};
     phaseTimer := true;
     idx := 0;
     trace := [ShowProgress (lit "Preparing content" ++ ellipsis);
               SetInterval 1200;
               the_request pg] |}.

(** The state the handler ends in when the [try] block is left in state
    [s] with the events [last] still to come. *)
Definition finished (b : button) (s : ui) (last : list event) : ui :=
  {| generateBtn := {| disabled := false; textContent := textContent b |};
     phaseTimer := false;
     idx := idx s;
     trace := trace s ++ last |}.

(** The state after the timer has fired [n] times while armed. *)
Definition ticked (n : nat) (s : ui) : ui :=
  {| generateBtn := generateBtn s; phaseTimer := true;
     idx := (idx s + n)%nat; trace := trace s ++ tick_events n (idx s) |}.

(** The state in which the body of a successful response has been
    awaited. *)
Definition reading (net : network) (s : ui) : ui :=
  ticked (ticks_body net)
    {| generateBtn := generateBtn s; phaseTimer := true;
       idx := (idx s + ticks_request net)%nat;
       trace := trace s ++ tick_events (ticks_request net) (idx s)
                ++ [SetPhase (lit "Downloading" ++ ellipsis)] |}.

Definition failure_alert (e : error) : str :=
  lit "Generate failed: " ++ err_display e.

(** The message of the error thrown for a status that is neither a
    success nor 401. *)
Definition status_message (resp : response) : str :=
  lit "Generate API error " ++ of_num (status resp) ++ lit ": "
  ++ slice0 500 (match text_result resp with
                 | Resolves t => t
                 | Rejects _ => lit "<no body>"
                 end).

End MoreNotions.

(* ================================================================== *)
(** ** Further sample inputs *)

Module MoreSamples.
Import JS Frontend Server Samples.

Definition answers (st : N) (hs : Http.headers) (body : string) : response :=
  {| status := st; resp_headers := hs;
     text_result := Resolves (lit body);
     blob_result := Resolves docx |}.

(** A success whose header uses the extended form for a name with a
    space and a letter outside ASCII. *)
Definition extended_response : response :=
  answers 200
    [ (lit "Content-Disposition",
       MoreNotions.extended_disposition (lit "na%C3%AFve%20plan.docx")) ] "".

(** A success whose header has a per-cent sign that starts no escape. *)
Definition malformed_response : response :=
  answers 200
    [ (lit "Content-Disposition",
       MoreNotions.extended_disposition (lit "100%.docx")) ] "".

(** A success whose header names no file. *)
Definition inline_response : response :=
  answers 200 [ (lit "Content-Disposition", lit "inline") ] "".

Definition overloaded_response : response :=
  answers 503 [] "upstream busy".

(** A success whose body cannot be read. *)
Definition unread_response : response :=
  {| status := 200; resp_headers := [];
     text_result := Rejects {| err_name := lit "TypeError";
                               err_message := lit "body stream already read" |};
     blob_result := Rejects {| err_name := lit "TypeError";
                               err_message := lit "network error" |} |}.

(** A catalog with a repeated category, a row without category, a free
    service and an empty description. *)
Definition priced (cat svc : option str) (desc : option str) (price : N) : row :=
  {| category_name := cat;
     service_name := svc;
     positioning := None;
     description := desc;
     price_man_day := Some price;
     duration_days := None;
     default_days := Some 3 |}.

Definition mixed_catalog : store :=
  {| tables := fun _ =>
       [ priced (Some (lit "Cloud")) (Some (lit "Migration")) (Some (lit "Move")) 900;
         priced (Some (lit "Data")) (Some (lit "Backup")) (Some []) 0;
         priced (Some (lit "Cloud")) (Some (lit "Sizing")) None 700;
         priced None (Some (lit "Workshop")) None 500;
         priced (Some (lit "Data")) (Some (lit "Backup")) None 800 ];
     store_fault := None |}.

Definition failing_catalog (f : fault) : store :=
  {| tables := tables mixed_catalog; store_fault := Some f |}.


Definition caller_headers : Http.headers :=
  [ (lit "content-type", lit "application/json");
    (lit "authorization", lit "Bearer tok-1") ].

End MoreSamples.

(* ================================================================== *)
(** ** Facts about the builtins *)

Module JSFacts.
Import JS.

Lemma str_eqb_eq (a b : str) : str_eqb a b = true <-> a = b.
Proof.
  unfold str_eqb. destruct (list_eq_dec N.eq_dec a b); split; congruence.
Qed.

Lemma str_eqb_neq (a b : str) : str_eqb a b = false <-> a <> b.
Proof.
  unfold str_eqb. destruct (list_eq_dec N.eq_dec a b); split; congruence.
Qed.

Lemma truthy_false (s : str) : truthy s = false <-> s = [].
Proof. destruct s; simpl; split; congruence. Qed.

Lemma or_else_truthy (a b : str) : a <> [] -> or_else a b = a.
Proof. destruct a; [congruence | reflexivity]. Qed.

(** *** trim *)

Lemma trimStart_head (s : str) c t :
  trimStart s = c :: t -> is_space c = false.
Proof.
  induction s as [|x s IH]; simpl; [discriminate|].
  destruct (is_space x) eqn:E; [exact IH|].
  intros H. inversion H. subst. exact E.
Qed.

Lemma trimStart_nil (s : str) :
  trimStart s = [] <-> forallb is_space s = true.
Proof.
  induction s as [|x s IH]; simpl; [tauto|].
  destruct (is_space x); simpl; [exact IH|].
  split; discriminate.
Qed.

Lemma forallb_rev (f : N -> bool) (l : list N) :
  forallb f (rev l) = forallb f l.
Proof.
  induction l as [|x l IH]; simpl; [reflexivity|].
  rewrite forallb_app, IH. simpl. rewrite andb_true_r. apply andb_comm.
Qed.

(** The script's blank test and the plain reading of it agree: the
    trimmed text is empty exactly when every code unit is white space. *)
Lemma trim_blank (s : str) :
  truthy (trim s) = false <-> forallb is_space s = true.
Proof.
  rewrite truthy_false. unfold trim, trimEnd. split.
  - intros H.
    assert (H1 : trimStart (rev (trimStart s)) = []).
    { destruct (trimStart (rev (trimStart s))) as [|c l]; [reflexivity|].
      simpl in H. destruct (rev l); discriminate. }
    apply trimStart_nil in H1. rewrite forallb_rev in H1.
    apply trimStart_nil.
    destruct (trimStart s) as [|c t] eqn:E; [reflexivity|].
    apply trimStart_head in E. simpl in H1. rewrite E in H1. discriminate.
  - intros H. apply trimStart_nil in H. rewrite H. reflexivity.
Qed.

Lemma trim_blank_b (s : str) :
  negb (truthy (trim s)) = forallb is_space s.
Proof.
  destruct (forallb is_space s) eqn:E.
  - apply trim_blank in E. rewrite E. reflexivity.
  - destruct (truthy (trim s)) eqn:T; [reflexivity|].
    apply trim_blank in T. congruence.
Qed.

(** *** join *)

Lemma join_cons (sep x : str) (rest : list str) :
  exists tail, join sep (x :: rest) = x ++ tail.
Proof.
  destruct rest as [|y rest]; simpl.
  - exists []. symmetry. apply app_nil_r.
  - eexists. reflexivity.
Qed.

(** Joining strings that are all non-empty gives the empty string only
    for the empty array. *)
Lemma join_empty (sep : str) (xs : list str) :
  Forall (fun x => truthy x = true) xs ->
  join sep xs = [] -> xs = [].
Proof.
  intros Hall Hj. destruct xs as [|x rest]; [reflexivity|].
  inversion Hall as [|? ? Hx _]; subst.
  destruct (join_cons sep x rest) as [tail Ht].
  rewrite Ht in Hj. destruct x; [discriminate|discriminate].
Qed.

(** *** Header lookup *)

Lemma get_any_case (a b : str) (hs : Http.headers) :
  map Http.lower a = map Http.lower b -> Http.get a hs = Http.get b hs.
Proof.
  intros H. unfold Http.get, Http.name_eqb. rewrite H. reflexivity.
Qed.

Lemma ok_not_401 (st : N) : Http.ok_status st = true -> (st =? 401) = false.
Proof.
  unfold Http.ok_status. intros H.
  apply andb_true_iff in H. destruct H as [_ H].
  apply N.leb_le in H. apply N.eqb_neq. lia.
Qed.

End JSFacts.

(* ================================================================== *)
(** ** The click handler: what it adds to the trace *)

Module TraceLogic.
Import JS Frontend Notions.

Section Emits.

Variable P : event -> Prop.

Lemma emits_ret {A} (a : A) : emits P (ret a).
Proof. intros s. exists []. simpl. rewrite app_nil_r. auto. Qed.

Lemma emits_throw {A} (e : error) : emits P (@throw A e).
Proof. intros s. exists []. simpl. rewrite app_nil_r. auto. Qed.

Lemma emits_await {A} (r : settled A) : emits P (await r).
Proof. destruct r; [apply emits_ret | apply emits_throw]. Qed.

Lemma emits_bind {A B} (m : M A) (k : A -> M B) :
  emits P m -> (forall a, emits P (k a)) -> emits P (bind m k).
Proof.
  intros Hm Hk s. unfold bind.
  destruct (Hm s) as [l1 [E1 F1]].
  destruct (m s) as [[a|e] s1]; simpl in *.
  - destruct (Hk a s1) as [l2 [E2 F2]].
    exists (l1 ++ l2). rewrite E2, E1, app_assoc. split; [reflexivity|].
    apply Forall_app; auto.
  - exists l1. auto.
Qed.

Lemma emits_emit (e : event) : P e -> emits P (emit e).
Proof. intros H s. exists [e]. simpl. auto. Qed.

Lemma emits_set_disabled (b : bool) : emits P (set_disabled b).
Proof. intros s. exists []. simpl. rewrite app_nil_r. auto. Qed.

Lemma emits_set_textContent (t : str) : emits P (set_textContent t).
Proof. intros s. exists []. simpl. rewrite app_nil_r. auto. Qed.

Lemma emits_get_textContent : emits P get_textContent.
Proof. intros s. exists []. simpl. rewrite app_nil_r. auto. Qed.

Lemma emits_setInterval : P (SetInterval 1200) -> emits P setInterval.
Proof. intros H s. exists [SetInterval 1200]. simpl. auto. Qed.

Lemma emits_clearInterval : P ClearInterval -> emits P clearInterval.
Proof. intros H s. exists [ClearInterval]. simpl. auto. Qed.

Lemma emits_tick : (forall msg, P (SetPhase msg)) -> emits P tick.
Proof.
  intros H s. unfold tick. destruct (phaseTimer s); simpl.
  - eexists. split; [reflexivity|]. auto.
  - exists []. rewrite app_nil_r. auto.
Qed.

Lemma emits_ticks (n : nat) : (forall msg, P (SetPhase msg)) -> emits P (ticks n).
Proof.
  intros H. induction n as [|n IH]; simpl.
  - apply emits_ret.
  - apply emits_bind; [apply emits_tick; exact H | intros _; exact IH].
Qed.

Lemma emits_try_catch_finally body handler fin :
  emits P body -> (forall e, emits P (handler e)) -> emits P fin ->
  emits P (try_catch_finally body handler fin).
Proof.
  intros Hb Hh Hf s. unfold try_catch_finally.
  destruct (Hb s) as [l1 [E1 F1]].
  destruct (body s) as [[u|e] s1]; simpl in *.
  - destruct (Hf s1) as [l2 [E2 F2]].
    exists (l1 ++ l2). rewrite E2, E1, app_assoc. split; [reflexivity|].
    apply Forall_app; auto.
  - destruct (Hh e s1) as [l2 [E2 F2]].
    destruct (handler e s1) as [[u|e'] s2]; simpl in *.
    + destruct (Hf s2) as [l3 [E3 F3]].
      exists (l1 ++ l2 ++ l3). rewrite E3, E2, E1, !app_assoc.
      split; [reflexivity|]. repeat (apply Forall_app; split); auto.
    + destruct (Hf s2) as [l3 [E3 F3]].
      exists (l1 ++ l2 ++ l3).
      destruct (fin s2) as [[u|e''] s3]; simpl in *;
        rewrite E3, E2, E1, !app_assoc;
        (split; [reflexivity|]); repeat (apply Forall_app; split); auto.
Qed.

Lemma emits_derive_filename (hs : Http.headers) : emits P (derive_filename hs).
Proof.
  unfold derive_filename.
  repeat match goal with
         | |- emits _ (match ?x with _ => _ end) => destruct x
         | |- emits _ (if ?x then _ else _) => destruct x
         end; first [apply emits_ret | apply emits_throw].
Qed.

End Emits.

(** Whatever was in the trace stays in it. *)
Lemma emits_retains {A} (m : M A) (s : ui) (e : event) :
  emits any_event m -> In e (trace s) -> In e (trace (snd (m s))).
Proof.
  intros H Hin. destruct (H s) as [l [E _]]. rewrite E.
  apply in_or_app. left. exact Hin.
Qed.

Lemma any_event_all (l : list event) : Forall any_event l.
Proof. apply Forall_forall. intros; exact I. Qed.

Lemma emits_weaken (P : event -> Prop) {A} (m : M A) :
  emits P m -> emits any_event m.
Proof.
  intros H s. destruct (H s) as [l [E _]]. exists l. split; [exact E|].
  apply any_event_all.
Qed.

End TraceLogic.

(* ================================================================== *)
(** ** Properties of the client orchestrator *)

Module FrontendFacts.
Import JS Frontend Notions JSFacts TraceLogic.

(** The guard of line 123 is the blank test. *)
Lemma blank_guard (pg : page) :
  negb (truthy (trim (value_or (requirementsEl pg) []))) = requirements_blank pg.
Proof. apply trim_blank_b. Qed.

Ltac emits_step :=
  first
    [ apply emits_ret
    | apply emits_throw
    | apply emits_await
    | apply emits_set_disabled
    | apply emits_set_textContent
    | apply emits_get_textContent
    | apply emits_derive_filename
    | apply emits_ticks; intros
    | apply emits_setInterval
    | apply emits_clearInterval
    | apply emits_emit
    | apply emits_bind; [| intros ] ].

Section Handler.

Variable P : event -> Prop.
Hypothesis others : forall e, is_fetch e = false -> P e.

Lemma settle_emits (net : network) (oldLabel : str) :
  emits P (settle net oldLabel).
Proof.
  unfold settle.
  apply emits_bind; [apply emits_ticks; intros; apply others; reflexivity | intros _].
  apply emits_bind; [apply emits_await | intros resp].
  apply emits_bind.
  { unfold handle401, toast, navigate. destruct (status resp =? 401);
      repeat emits_step; apply others; reflexivity. }
  intros [|].
  - unfold doneProgress. repeat emits_step; apply others; reflexivity.
  - destruct (negb (Http.ok_status (status resp))).
    + unfold setPhase. repeat emits_step; apply others; reflexivity.
    + unfold setPhase, doneProgress, toast.
      repeat emits_step; apply others; reflexivity.
Qed.

Lemma catch_emits (e : error) :
  emits P (doneProgress false ;;
           alert (lit "Generate failed: " ++ err_display e)).
Proof.
  unfold doneProgress, alert. repeat emits_step; apply others; reflexivity.
Qed.

Lemma finally_emits (oldLabel : str) :
  emits P (clearInterval ;; set_disabled false ;; set_textContent oldLabel).
Proof. repeat emits_step; apply others; reflexivity. Qed.

Lemma click_emits (pg : page) (net : network) :
  (dispatches pg = true -> P (the_request pg)) -> emits P (click pg net).
Proof.
  intros HF. unfold click.
  destruct (isAuthed pg) eqn:A; simpl.
  - rewrite blank_guard. destruct (requirements_blank pg) eqn:B.
    + unfold alert. emits_step. apply others. reflexivity.
    + assert (D : dispatches pg = true)
        by (unfold dispatches; rewrite A, B; reflexivity).
      apply emits_bind; [emits_step | intros _].
      apply emits_bind; [emits_step | intros oldLabel].
      apply emits_bind; [emits_step | intros _].
      apply emits_bind;
        [unfold showProgress; emits_step; apply others; reflexivity | intros _].
      apply emits_bind;
        [apply emits_setInterval; apply others; reflexivity | intros _].
      apply emits_try_catch_finally.
      * unfold request. apply emits_bind.
        -- apply emits_emit. apply HF. exact D.
        -- intros _. apply settle_emits.
      * apply catch_emits.
      * apply finally_emits.
  - unfold toast, navigate. repeat emits_step; apply others; reflexivity.
Qed.

End Handler.

Lemma own_request_others (pg : page) (e : event) :
  is_fetch e = false -> own_request pg e.
Proof. destruct e; simpl; intros H; try exact I. discriminate. Qed.

(** Every request a trigger sends is the page's own request, and is sent
    only past both guards. *)
Lemma fetch_inversion pg net b u h p :
  In (Fetch u h p) (trace (run pg net b)) ->
  u = generate_url /\
  h = authHeaders pg [(lit "Content-Type", lit "application/json")] /\
  p = build_payload pg /\
  dispatches pg = true.
Proof.
  intros Hin.
  assert (E : emits (own_request pg) (click pg net)).
  { apply click_emits.
    - apply own_request_others.
    - intros D. simpl. auto. }
  destruct (E (start b)) as [l [El Fl]]. unfold run in Hin.
  rewrite El in Hin. simpl in Hin.
  rewrite Forall_forall in Fl. exact (Fl _ Hin).
Qed.

(** The state in which the [try] block starts. *)
Lemma click_dispatch pg net b :
  dispatches pg = true ->
  click pg net (start b) =
  try_catch_finally
    (request pg net (textContent b))
    (fun err => doneProgress false ;;
                alert (lit "Generate failed: " ++ err_display err))
    (clearInterval ;; set_disabled false ;; set_textContent (textContent b))
    {| generateBtn := {| disabled := true; textContent := lit "Generating..." |};
       phaseTimer := true;
       idx := 0;
       trace := [ShowProgress (lit "Preparing content" ++ ellipsis);
                 SetInterval 1200] |}.
Proof.
  intros D. unfold dispatches in D. apply andb_true_iff in D.
  destruct D as [A B]. apply negb_true_iff in B.
  unfold click. rewrite A, blank_guard, B. reflexivity.
Qed.

(** Past both guards the request is sent. *)
Lemma dispatch_fetches pg net b :
  dispatches pg = true -> In (the_request pg) (trace (run pg net b)).
Proof.
  intros D. unfold run. rewrite (click_dispatch pg net b D).
  set (s0 := {| generateBtn := _ |}).
  assert (Hb : In (the_request pg)
                  (trace (snd (request pg net (textContent b) s0)))).
  { unfold request, bind at 1, emit.
    apply emits_retains.
    - apply settle_emits. intros; exact I.
    - simpl. right. right. left. reflexivity. }
  unfold try_catch_finally.
  destruct (request pg net (textContent b) s0) as [[u|e] s1]; simpl in Hb.
  - apply (emits_retains _ s1 _ (finally_emits any_event (fun e _ => I) _) Hb).
  - pose proof (emits_retains _ s1 _ (catch_emits any_event (fun e _ => I) e) Hb)
      as H1.
    destruct ((doneProgress false ;;
               alert (lit "Generate failed: " ++ err_display e)) s1)
      as [[u|e'] s2]; simpl in H1.
    + apply (emits_retains _ s2 _ (finally_emits any_event (fun e _ => I) _) H1).
    + pose proof (emits_retains _ s2 _
                    (finally_emits any_event (fun e _ => I) (textContent b)) H1)
        as H2.
      destruct ((clearInterval ;; set_disabled false ;;
                 set_textContent (textContent b)) s2) as [[u|e''] s3];
        exact H2.
Qed.

End FrontendFacts.

(* ================================================================== *)
(** ** The paths of one trigger, in closed form *)

Module Paths.
Import JS Frontend Notions JSFacts TraceLogic FrontendFacts.

Lemma tick_events_S (n i : nat) :
  tick_events (S n) i =
  SetPhase (nth (Nat.modulo i (List.length phases)) phases [])
  :: tick_events n (S i).
Proof. reflexivity. Qed.

(** While the timer is armed, [n] firings show [n] labels and advance the
    counter by [n]. *)
Lemma ticks_armed (n : nat) (s : ui) :
  phaseTimer s = true ->
  ticks n s =
  (Normal tt,
   {| generateBtn := generateBtn s; phaseTimer := true;
      idx := (idx s + n)%nat; trace := trace s ++ tick_events n (idx s) |}).
Proof.
  revert s. induction n as [|n IH]; intros s T.
  - simpl. unfold ret. destruct s; simpl in *. subst.
    rewrite app_nil_r, Nat.add_0_r. reflexivity.
  - simpl ticks. unfold bind at 1. unfold tick at 1. rewrite T.
    rewrite IH by reflexivity. simpl.
    rewrite tick_events_S, <- app_assoc. simpl.
    replace (S (idx s + n)) with (idx s + S n)%nat by lia. reflexivity.
Qed.

Lemma downloads_app (l1 l2 : list event) :
  downloads (l1 ++ l2) = downloads l1 ++ downloads l2.
Proof.
  induction l1 as [|e l1 IH]; simpl; [reflexivity|].
  destruct e; simpl; rewrite IH; reflexivity.
Qed.

Lemma downloads_tick_events (n i : nat) : downloads (tick_events n i) = [].
Proof.
  revert i. induction n as [|n IH]; intros i; [reflexivity|].
  rewrite tick_events_S. simpl. apply IH.
Qed.

(** The response is a success whose body can be read and whose file name
    is [f]: the state when the [try] block completes. *)
Lemma settle_success net oldLabel resp data f s :
  phaseTimer s = true ->
  fetch_result net = Resolves resp ->
  Http.ok_status (status resp) = true ->
  blob_result resp = Resolves data ->
  derive_filename (resp_headers resp) = ret f ->
  settle net oldLabel s =
  (Normal tt,
   {| generateBtn := generateBtn s; phaseTimer := true;
      idx := (idx s + ticks_request net + ticks_body net)%nat;
      trace := trace s ++ tick_events (ticks_request net) (idx s)
               ++ [SetPhase (lit "Downloading" ++ ellipsis)]
               ++ tick_events (ticks_body net) (idx s + ticks_request net)
               ++ [Download f data; DoneProgress true;
                   Toast (lit "Proposal downloaded")] |}).
Proof.
  intros T Hf Hok Hb Hd. unfold settle.
  unfold bind at 1. rewrite (ticks_armed _ s T).
  rewrite Hf. unfold await at 1, bind at 1, ret at 1.
  unfold handle401. rewrite (ok_not_401 _ Hok).
  unfold bind at 1, ret at 1. rewrite Hok. cbv [negb].
  unfold bind at 1, setPhase at 1, emit at 1. cbv [trace generateBtn phaseTimer idx].
  unfold bind at 1. rewrite ticks_armed by reflexivity.
  cbv [trace generateBtn phaseTimer idx].
  rewrite Hb, Hd. unfold await, bind, ret, emit, doneProgress, toast, emit.
  cbv [trace generateBtn phaseTimer idx].
  repeat rewrite <- app_assoc. reflexivity.
Qed.

End Paths.

(* ================================================================== *)
(** ** Parsing a quoted file name *)

Module FilenameFacts.
Import JS Frontend Notions JSFacts.

Lemma plain_name_inv (c : N) (name : str) :
  plain_name (c :: name) = true ->
  (c <> 59 /\ c <> 39 /\ c <> 34 /\ c <> 37) /\ plain_name name = true.
Proof.
  unfold plain_name. simpl. intros H. apply andb_true_iff in H.
  destruct H as [Hc Hn]. split; [|exact Hn].
  apply negb_true_iff in Hc. repeat (apply orb_false_iff in Hc; destruct Hc as [Hc ?]).
  repeat split; apply N.eqb_neq; assumption.
Qed.

Lemma until_semicolon_plain (name tail : str) :
  plain_name name = true ->
  until_semicolon (name ++ tail) = name ++ until_semicolon tail.
Proof.
  induction name as [|c name IH]; intros H; [reflexivity|].
  apply plain_name_inv in H. destruct H as [(H59 & _) Hn].
  simpl. apply N.eqb_neq in H59. rewrite H59, IH by exact Hn. reflexivity.
Qed.

Lemma upper_apostrophe (c : N) : upper c = 39 -> c = 39.
Proof.
  unfold upper. destruct ((97 <=? c) && (c <=? 122)) eqn:E; [|auto].
  apply andb_true_iff in E. destruct E as [E1 E2].
  apply N.leb_le in E1. lia.
Qed.

(** A match of a pattern that has an apostrophe consumes one. *)
Lemma match_ci_apostrophe (pat s rest : str) :
  In 39 pat -> match_ci pat s = Some rest -> In 39 s.
Proof.
  revert s. induction pat as [|p pat IH]; intros s Hin Hm; [destruct Hin|].
  destruct s as [|c s]; [discriminate|]. simpl in Hm.
  destruct (upper p =? upper c) eqn:E; [|discriminate].
  destruct Hin as [-> | Hin].
  - apply N.eqb_eq in E. left. symmetry in E. change (upper 39) with 39 in E.
    apply upper_apostrophe in E. exact E.
  - right. exact (IH s Hin Hm).
Qed.

Lemma remove_first_ci_eq (pat s : str) :
  remove_first_ci pat s =
  match match_ci pat s with
  | Some rest => rest
  | None =>
      match s with
      | [] => []
      | c :: t => c :: remove_first_ci pat t
      end
  end.
Proof. destruct s; reflexivity. Qed.

Lemma remove_utf8_none (s : str) :
  ~ In 39 s -> remove_first_ci (lit "UTF-8''") s = s.
Proof.
  induction s as [|c s IH]; intros H.
  - reflexivity.
  - rewrite remove_first_ci_eq.
    destruct (match_ci (lit "UTF-8''") (c :: s)) as [rest|] eqn:E.
    + exfalso. apply H. apply (match_ci_apostrophe _ _ rest) in E; [exact E|].
      vm_compute. tauto.
    + rewrite IH; [reflexivity|]. intros Hin. apply H. right. exact Hin.
Qed.

Lemma plain_no_apostrophe (name : str) :
  plain_name name = true -> ~ In 39 name.
Proof.
  induction name as [|c name IH]; intros H Hin; [destruct Hin|].
  apply plain_name_inv in H. destruct H as [(_ & H39 & _) Hn].
  destruct Hin as [-> | Hin]; [congruence | exact (IH Hn Hin)].
Qed.

Lemma remove_quotes_plain (name : str) :
  plain_name name = true -> remove_quotes name = name.
Proof.
  induction name as [|c name IH]; intros H; [reflexivity|].
  apply plain_name_inv in H. destruct H as [(_ & H39 & H34 & _) Hn].
  unfold remove_quotes in *. simpl.
  apply N.eqb_neq in H39. apply N.eqb_neq in H34. rewrite H39, H34. simpl.
  rewrite IH by exact Hn. reflexivity.
Qed.

Lemma decode_plain (name : str) :
  plain_name name = true -> decodeURIComponent name = Decoded name.
Proof.
  unfold decodeURIComponent.
  induction name as [|c name IH]; intros H; [reflexivity|].
  apply plain_name_inv in H. destruct H as [(_ & _ & _ & H37) Hn].
  simpl. apply N.eqb_neq in H37. rewrite H37, IH by exact Hn. reflexivity.
Qed.

(** The pattern finds the quoted name, quotes included. *)
Lemma match_quoted (name : str) :
  plain_name name = true ->
  filename_match (quoted_disposition name) = Some (34 :: name ++ [34]).
Proof.
  intros H. unfold quoted_disposition.
  change (filename_match (lit "attachment; filename=" ++ [34] ++ name ++ [34]))
    with (match until_semicolon (34 :: name ++ [34]) with
          | [] => None
          | g => Some g
          end).
  change (until_semicolon (34 :: name ++ [34]))
    with (34 :: until_semicolon (name ++ [34])).
  rewrite (until_semicolon_plain name [34] H). reflexivity.
Qed.

(** Lines 193-198 on the quoted header of a plain name give that name. *)
Lemma derive_quoted_plain (hs : Http.headers) (name : str) :
  plain_name name = true ->
  Http.get (lit "Content-Disposition") hs = Some (quoted_disposition name) ->
  derive_filename hs = ret name.
Proof.
  intros Hp H. unfold derive_filename. rewrite H.
  change (opt_or_else
            (opt_or (Some (quoted_disposition name))
                    (Http.get (lit "content-disposition") hs)) [])
    with (quoted_disposition name).
  change (truthy (quoted_disposition name)) with true. cbv iota.
  rewrite (match_quoted name Hp).
  change (truthy (34 :: name ++ [34])) with true. cbv iota.
  rewrite remove_utf8_none.
  - change (remove_quotes (34 :: name ++ [34]))
      with (remove_quotes (name ++ [34])).
    unfold remove_quotes. rewrite filter_app. fold (remove_quotes name).
    rewrite (remove_quotes_plain name Hp). simpl. rewrite app_nil_r.
    rewrite (decode_plain name Hp). reflexivity.
  - intros [E | Hin]; [discriminate|].
    apply in_app_or in Hin. destruct Hin as [Hin | [E | []]].
    + exact (plain_no_apostrophe name Hp Hin).
    + discriminate.
Qed.

End FilenameFacts.

(* ================================================================== *)
(** ** Claims about the client orchestrator *)

Module Orchestrator.
Import JS Frontend Notions Samples JSFacts TraceLogic FrontendFacts Paths.
Import FilenameFacts.

(** *** File name of the download *)

Lemma derive_absent (hs : Http.headers) :
  Http.get (lit "Content-Disposition") hs = None ->
  derive_filename hs = ret (lit "proposal.docx").
Proof.
  intros H. unfold derive_filename.
  rewrite <- (get_any_case (lit "Content-Disposition")
                           (lit "content-disposition") hs) by reflexivity.
  rewrite H. reflexivity.
Qed.

(** A successful response whose body can be read hands the browser
    exactly one file, under the derived name. *)
Lemma success_downloads pg net b resp data f :
  dispatches pg = true ->
  fetch_result net = Resolves resp ->
  Http.ok_status (status resp) = true ->
  blob_result resp = Resolves data ->
  derive_filename (resp_headers resp) = ret f ->
  downloads (trace (run pg net b)) = [(f, data)].
Proof.
  intros D Hf Hok Hb Hd. unfold run. rewrite (click_dispatch pg net b D).
  unfold try_catch_finally, request.
  unfold bind at 1, emit at 1. cbv [trace generateBtn phaseTimer idx].
  rewrite settle_success with (resp := resp) (data := data) (f := f)
    by (assumption || reflexivity).
  cbv [bind clearInterval set_disabled set_textContent snd trace
       generateBtn phaseTimer idx].
  repeat rewrite downloads_app. repeat rewrite downloads_tick_events.
  reflexivity.
Qed.

(** C1.  A successful generation response whose Content-Disposition header
    is exactly [attachment; filename=] followed by [Proposal_X.docx] in
    double quotes is downloaded under the name [Proposal_X.docx], and one
    with no Content-Disposition header at all under the default name
    [proposal.docx].  The first part holds for every plain name in the
    place of [Proposal_X.docx]. *)
Theorem C1_download_filename pg net b resp data :
  dispatches pg = true ->
  fetch_result net = Resolves resp ->
  Http.ok_status (status resp) = true ->
  blob_result resp = Resolves data ->
  (Http.get (lit "Content-Disposition") (resp_headers resp)
   = Some (quoted_disposition (lit "Proposal_X.docx")) ->
   downloads (trace (run pg net b)) = [(lit "Proposal_X.docx", data)]) /\
  (Http.get (lit "Content-Disposition") (resp_headers resp) = None ->
   downloads (trace (run pg net b)) = [(lit "proposal.docx", data)]) /\
  (forall name,
     plain_name name = true ->
     Http.get (lit "Content-Disposition") (resp_headers resp)
     = Some (quoted_disposition name) ->
     downloads (trace (run pg net b)) = [(name, data)]).
Proof.
  intros D Hf Hok Hb.
  assert (G : forall name,
             plain_name name = true ->
             Http.get (lit "Content-Disposition") (resp_headers resp)
             = Some (quoted_disposition name) ->
             downloads (trace (run pg net b)) = [(name, data)]).
  { intros name Hp H.
    apply (success_downloads pg net b resp data _ D Hf Hok Hb).
    apply derive_quoted_plain; assumption. }
  split; [|split].
  - apply G. reflexivity.
  - intros H.
    apply (success_downloads pg net b resp data _ D Hf Hok Hb).
    apply derive_absent. exact H.
  - exact G.
Qed.

Lemma C1_download_filename_witness :
  downloads (trace (run filled_page (delivers named_response) idle_button))
  = [(lit "Proposal_X.docx", docx)] /\
  downloads (trace (run filled_page (delivers unnamed_response) idle_button))
  = [(lit "proposal.docx", docx)].
Proof.
  split.
  - apply (proj1 (C1_download_filename filled_page (delivers named_response)
                    idle_button named_response docx
                    eq_refl eq_refl eq_refl eq_refl)).
    reflexivity.
  - apply (proj1 (proj2 (C1_download_filename filled_page
                           (delivers unnamed_response)
                           idle_button unnamed_response docx
                           eq_refl eq_refl eq_refl eq_refl))).
    reflexivity.
Defined.

(** *** The wire payload *)

(** C2.  In the dispatched payload, deployment_type is [on-premise] for the
    label [onsite], [dark-site] for the label [dark_site], [hybrid] for the
    empty label, and the label itself for every other label. *)
Theorem C2_deployment_mapping pg net b u h p :
  In (Fetch u h p) (trace (run pg net b)) ->
  (deployment_label pg = lit "onsite" ->
   deployment_type p = lit "on-premise") /\
  (deployment_label pg = lit "dark_site" ->
   deployment_type p = lit "dark-site") /\
  (deployment_label pg = [] ->
   deployment_type p = lit "hybrid") /\
  (deployment_label pg <> lit "onsite" ->
   deployment_label pg <> lit "dark_site" ->
   deployment_label pg <> [] ->
   deployment_type p = deployment_label pg).
Proof.
  intros Hin. apply fetch_inversion in Hin.
  destruct Hin as (_ & _ & -> & _).
  unfold build_payload, deployment_type, apiDeployment.
  fold (deployment_label pg).
  repeat split.
  - intros ->. reflexivity.
  - intros ->. reflexivity.
  - intros ->. reflexivity.
  - intros H1 H2 H3.
    apply str_eqb_neq in H1. apply str_eqb_neq in H2. rewrite H1, H2.
    apply or_else_truthy. exact H3.
Qed.

Lemma C2_deployment_mapping_witness :
  deployment_label filled_page = lit "onsite" /\
  deployment_type (build_payload filled_page) = lit "on-premise" /\
  deployment_label padded_option_page = lit "remote" /\
  deployment_type (build_payload padded_option_page) = lit "remote".
Proof.
  split; [reflexivity|]. split.
  - apply (C2_deployment_mapping filled_page offline idle_button
             generate_url
             (authHeaders filled_page
                [(lit "Content-Type", lit "application/json")])
             (build_payload filled_page)).
    + vm_compute. right. right. left. reflexivity.
    + reflexivity.
  - split; [reflexivity|].
    apply (C2_deployment_mapping padded_option_page offline idle_button
             generate_url
             (authHeaders padded_option_page
                [(lit "Content-Type", lit "application/json")])
             (build_payload padded_option_page)).
    + vm_compute. right. right. left. reflexivity.
    + vm_compute. discriminate.
    + vm_compute. discriminate.
    + vm_compute. discriminate.
Defined.

(** What [getSelectedHardwareProviders] returns, over the values the
    script keeps. *)
Lemma selected_join (pg : page) :
  getSelectedHardwareProviders pg = join (lit ", ") (selected_values pg).
Proof.
  unfold getSelectedHardwareProviders, selected_values, checked_values.
  destruct (hwprovGroupEl pg) as [inputs|]; [|reflexivity].
  rewrite map_map. reflexivity.
Qed.

Lemma selected_truthy (pg : page) :
  Forall (fun v => truthy v = true) (selected_values pg).
Proof.
  apply Forall_forall. intros v Hv. unfold selected_values in Hv.
  apply filter_In in Hv. tauto.
Qed.

Lemma hardware_choice_built (pg : page) :
  hardware_choice (build_payload pg) =
  match selected_values pg with
  | [] => lit "Nutanix"
  | _ :: _ => join (lit ", ") (selected_values pg)
  end.
Proof.
  unfold build_payload, hardware_choice. rewrite selected_join.
  pose proof (selected_truthy pg) as T.
  destruct (selected_values pg) as [|v vs] eqn:E; [reflexivity|].
  apply or_else_truthy. intros J.
  apply (join_empty _ _ T) in J. discriminate.
Qed.

Lemma kept_as_is (vs : list str) :
  Forall (fun v => trim v = v /\ v <> []) vs ->
  filter truthy (map trim vs) = vs.
Proof.
  induction 1 as [|v vs [Hv Hne] _ IH]; [reflexivity|].
  simpl. rewrite Hv, IH. destruct v; [congruence | reflexivity].
Qed.

(** C3, as amended.  In the dispatched payload, hardware_choice is the
    checked values, each trimmed and the blank ones dropped, joined by a
    comma and a space; it is [Nutanix] when no value is left, in particular
    when no option is checked; it is never the empty string; and it is the
    plain join of the checked values when none of them is blank or padded
    with white space. *)
Theorem C3_hardware_choice pg net b u h p :
  In (Fetch u h p) (trace (run pg net b)) ->
  hardware_choice p =
    match selected_values pg with
    | [] => lit "Nutanix"
    | _ :: _ => join (lit ", ") (selected_values pg)
    end /\
  (checked_values pg = [] -> hardware_choice p = lit "Nutanix") /\
  hardware_choice p <> [] /\
  (Forall (fun v => trim v = v /\ v <> []) (checked_values pg) ->
   hardware_choice p = spec_hardware_choice pg).
Proof.
  intros Hin. apply fetch_inversion in Hin.
  destruct Hin as (_ & _ & -> & _).
  pose proof (hardware_choice_built pg) as HB.
  repeat split.
  - exact HB.
  - intros E. rewrite HB. unfold selected_values. rewrite E. reflexivity.
  - rewrite HB. pose proof (selected_truthy pg) as T.
    destruct (selected_values pg) as [|v vs] eqn:E; [discriminate|].
    intros J. apply (join_empty _ _ T) in J. discriminate.
  - intros K. rewrite HB. unfold selected_values, spec_hardware_choice.
    rewrite (kept_as_is _ K).
    destruct (checked_values pg); reflexivity.
Qed.

Lemma C3_hardware_choice_witness :
  selected_values filled_page = [lit "Dell"; lit "Lenovo"] /\
  hardware_choice (build_payload filled_page) = lit "Dell, Lenovo" /\
  hardware_choice (build_payload filled_page) = spec_hardware_choice filled_page.
Proof.
  assert (Hin : In (the_request filled_page)
                   (trace (run filled_page offline idle_button))).
  { vm_compute. right. right. left. reflexivity. }
  destruct (C3_hardware_choice filled_page offline idle_button _ _ _ Hin)
    as (H1 & _ & _ & H4).
  split; [reflexivity|]. split.
  - rewrite H1. reflexivity.
  - apply H4. vm_compute.
    repeat (constructor; [split; [reflexivity | discriminate]|]).
    constructor.
Defined.

(** C3, as stated, fails: a single checked option whose value is [Dell]
    followed by a space is sent as [Dell], which is not the join of the
    checked values. *)
Lemma C3_padded_value_counterexample :
  In (the_request padded_option_page)
     (trace (run padded_option_page (delivers named_response) idle_button)) /\
  checked_values padded_option_page = [lit "Dell "] /\
  hardware_choice (build_payload padded_option_page) = lit "Dell" /\
  hardware_choice (build_payload padded_option_page)
  <> spec_hardware_choice padded_option_page.
Proof.
  split.
  - apply dispatch_fetches. reflexivity.
  - split; [reflexivity|]. split; [reflexivity|].
    vm_compute. discriminate.
Qed.

(** C9.  In every dispatched payload the primary and the alias fields carry
    the same values: requirements_text is client_requirements and
    client_boq is boq_text. *)
Theorem C9_alias_fields pg net b u h p :
  In (Fetch u h p) (trace (run pg net b)) ->
  requirements_text p = client_requirements p /\
  client_boq p = boq_text p.
Proof.
  intros Hin. apply fetch_inversion in Hin.
  destruct Hin as (_ & _ & -> & _). split; reflexivity.
Qed.

Lemma C9_alias_fields_witness :
  requirements_text (build_payload filled_page) = lit "Three-node cluster" /\
  client_requirements (build_payload filled_page) = lit "Three-node cluster" /\
  client_boq (build_payload filled_page) = boq_text (build_payload filled_page).
Proof.
  assert (Hin : In (the_request filled_page)
                   (trace (run filled_page offline idle_button))).
  { vm_compute. right. right. left. reflexivity. }
  destruct (C9_alias_fields filled_page offline idle_button _ _ _ Hin)
    as [H1 H2].
  split; [reflexivity|]. split; [rewrite <- H1; reflexivity | exact H2].
Defined.

(** C10.  When the client-name input is absent, or its value is the empty
    string, customer_name in the dispatched payload is the literal
    [Client]. *)
Theorem C10_default_customer_name pg net b u h p :
  In (Fetch u h p) (trace (run pg net b)) ->
  clientNameEl pg = None \/ clientNameEl pg = Some {| value := [] |} ->
  customer_name p = lit "Client".
Proof.
  intros Hin Hc. apply fetch_inversion in Hin.
  destruct Hin as (_ & _ & -> & _).
  unfold build_payload, customer_name.
  destruct Hc as [-> | ->]; reflexivity.
Qed.

Lemma C10_default_customer_name_witness :
  clientNameEl filled_page = Some {| value := [] |} /\
  customer_name (build_payload filled_page) = lit "Client".
Proof.
  split; [reflexivity|].
  apply (C10_default_customer_name filled_page offline idle_button
           generate_url
           (authHeaders filled_page
              [(lit "Content-Type", lit "application/json")])
           (build_payload filled_page)).
  - vm_compute. right. right. left. reflexivity.
  - right. reflexivity.
Defined.

(** *** Guards and clean-up *)

(** C4, as amended.  A trigger without a session token shows the login
    notice, goes to the login page and does nothing else, whatever the
    requirements text; a trigger with a token and an empty or
    white-space-only requirements text shows the validation prompt and does
    nothing else; in both cases no request is sent and the button is left
    as it was. *)
Theorem C4_guards_before_fetch pg net b :
  (isAuthed pg = false ->
   run pg net b =
   {| generateBtn := b; phaseTimer := false; idx := 0;
      trace := [Toast (lit "Please login to generate.");
                Navigate (lit "login.html")] |}) /\
  (isAuthed pg = true -> requirements_blank pg = true ->
   run pg net b =
   {| generateBtn := b; phaseTimer := false; idx := 0;
      trace := [Alert validation_prompt] |}) /\
  (isAuthed pg = false \/ requirements_blank pg = true ->
   forall u h p, ~ In (Fetch u h p) (trace (run pg net b))).
Proof.
  repeat split.
  - intros A. unfold run, click. rewrite A. reflexivity.
  - intros A B. unfold run, click. rewrite A, blank_guard, B. reflexivity.
  - intros G u h p Hin. apply fetch_inversion in Hin.
    destruct Hin as (_ & _ & _ & D). unfold dispatches in D.
    apply andb_true_iff in D. destruct D as [A B].
    apply negb_true_iff in B. destruct G; congruence.
Qed.

Lemma C4_guards_before_fetch_witness :
  trace (run anonymous_blank_page (delivers named_response) idle_button)
  = [Toast (lit "Please login to generate."); Navigate (lit "login.html")] /\
  trace (run blank_page (delivers named_response) idle_button)
  = [Alert validation_prompt] /\
  ~ In (the_request blank_page)
       (trace (run blank_page (delivers named_response) idle_button)).
Proof.
  destruct (C4_guards_before_fetch anonymous_blank_page
              (delivers named_response) idle_button) as (H1 & _ & _).
  destruct (C4_guards_before_fetch blank_page
              (delivers named_response) idle_button) as (_ & H2 & H3).
  split; [rewrite H1; reflexivity|].
  split; [rewrite H2; reflexivity|].
  apply H3. right. reflexivity.
Defined.

(** C4, as stated, fails: with no session token and an empty requirements
    text the trigger goes to the login page and never shows the validation
    prompt. *)
Lemma C4_anonymous_blank_counterexample :
  isAuthed anonymous_blank_page = false /\
  requirements_blank anonymous_blank_page = true /\
  trace (run anonymous_blank_page offline idle_button)
  = [Toast (lit "Please login to generate."); Navigate (lit "login.html")] /\
  forall msg,
    ~ In (Alert msg) (trace (run anonymous_blank_page offline idle_button)).
Proof.
  split; [reflexivity|]. split; [reflexivity|]. split; [reflexivity|].
  intros msg. vm_compute. intros [H|[H|[]]]; discriminate.
Qed.

(** C8.  Whatever the outcome of a dispatched request (a success, a 401,
    another failure status, a rejected fetch or any exception thrown
    while the response is handled), when the handler is done the phase
    timer is cancelled, the button is enabled and its label is the one it
    had before the dispatch. *)
Theorem C8_trigger_restored pg net b :
  dispatches pg = true ->
  phaseTimer (run pg net b) = false /\
  disabled (generateBtn (run pg net b)) = false /\
  textContent (generateBtn (run pg net b)) = textContent b.
Proof.
  intros D. unfold run. rewrite (click_dispatch pg net b D).
  unfold try_catch_finally.
  destruct (request pg net (textContent b) _) as [[u|e] s1].
  - repeat split.
  - destruct ((doneProgress false ;;
               alert (lit "Generate failed: " ++ err_display e)) s1)
      as [[u|e'] s2]; repeat split.
Qed.

Lemma C8_trigger_restored_witness :
  (let s := run filled_page (delivers named_response) idle_button in
   phaseTimer s = false /\ generateBtn s = idle_button) /\
  (let s := run filled_page (delivers expired_response) idle_button in
   phaseTimer s = false /\ generateBtn s = idle_button) /\
  (let s := run filled_page offline idle_button in
   phaseTimer s = false /\ generateBtn s = idle_button).
Proof.
  assert (G : forall net,
             phaseTimer (run filled_page net idle_button) = false /\
             generateBtn (run filled_page net idle_button) = idle_button).
  { intros net.
    destruct (C8_trigger_restored filled_page net idle_button eq_refl)
      as (H1 & H2 & H3).
    split; [exact H1|].
    destruct (generateBtn (run filled_page net idle_button)) as [d t].
    simpl in H2, H3. rewrite H2, H3. reflexivity. }
  repeat split; apply G.
Defined.

End Orchestrator.

(* ================================================================== *)
(** ** Claims about the server *)

Module Gateway.
Import JS Server Samples JSFacts.

Section ProxyClaims.

Variable json_value : Type.
Variable JSON_stringify : json_value -> str.

(** The one request the proxy sends downstream. *)
Lemma forward_call url req_body down :
  fst (forward JSON_stringify url req_body down) =
  [ {| out_url := url;
       out_method := lit "POST";
       out_headers := [(lit "Content-Type", lit "application/json")];
       out_body := JSON_stringify req_body |} ].
Proof.
  unfold forward. destruct down as [r|e]; [|reflexivity].
  destruct (r_buffer r); reflexivity.
Qed.

End ProxyClaims.

(** C5.  POST /api/generate_proposal with no downstream URL configured
    (the variable unset or empty) answers 501 with a JSON error body and
    contacts no downstream.  With a URL configured, a downstream call that
    fails at the transport level (the fetch is rejected, or the body cannot
    be read) is made once, and the answer is 500 with the fixed message
    [Failed to generate proposal], the same for every such failure. *)
Theorem C5_proxy_errors (json_value : Type)
    (JSON_stringify : json_value -> str) GENERATE_URL req_body down :
  (GENERATE_URL = None \/ GENERATE_URL = Some [] ->
   fst (generate_proposal JSON_stringify GENERATE_URL req_body down) = [] /\
   res_status (snd (generate_proposal JSON_stringify GENERATE_URL req_body down))
   = 501 /\
   exists msg,
     msg <> [] /\
     res_body (snd (generate_proposal JSON_stringify GENERATE_URL req_body down))
     = Json_error msg) /\
  (forall url e,
     GENERATE_URL = Some url -> url <> [] ->
     down = Rejects e \/
     (exists r, down = Resolves r /\ r_buffer r = Rejects e) ->
     generate_proposal JSON_stringify GENERATE_URL req_body down =
     ([ {| out_url := url;
           out_method := lit "POST";
           out_headers := [(lit "Content-Type", lit "application/json")];
           out_body := JSON_stringify req_body |} ],
      {| res_status := 500;
         res_headers := [];
         res_body := Json_error (lit "Failed to generate proposal") |})).
Proof.
  split.
  - intros [-> | ->]; simpl; (split; [reflexivity|]); (split; [reflexivity|]);
      eexists; (split; [|reflexivity]); discriminate.
  - intros url e -> Hu Hd. unfold generate_proposal, env_or_null.
    destruct url as [|c url]; [congruence|]. simpl truthy. cbv iota.
    destruct Hd as [-> | [r [-> Hb]]].
    + reflexivity.
    + unfold forward. rewrite Hb. reflexivity.
Qed.

Lemma C5_proxy_errors_witness :
  generate_proposal (fun j : str => j) None (lit "{}") (Resolves engine_response)
  = ([], status_json 501
           (Json_error (lit "No generate endpoint configured on server (set GENERATE_URL in .env)"))) /\
  snd (generate_proposal (fun j : str => j) (Some (lit "http://gen:8000/generate"))
         (lit "{}")
         (Rejects {| err_name := lit "FetchError";
                     err_message := lit "ECONNREFUSED" |}))
  = status_json 500 (Json_error (lit "Failed to generate proposal")).
Proof.
  split; [reflexivity|].
  rewrite (proj2 (C5_proxy_errors str (fun j : str => j)
                    (Some (lit "http://gen:8000/generate")) (lit "{}")
                    (Rejects {| err_name := lit "FetchError";
                                err_message := lit "ECONNREFUSED" |}))
             (lit "http://gen:8000/generate")
             {| err_name := lit "FetchError";
                err_message := lit "ECONNREFUSED" |}
             eq_refl ltac:(discriminate) (or_introl eq_refl)).
  reflexivity.
Defined.









End Gateway.

(* ================================================================== *)
(** ** Every path of one trigger, in closed form *)

Module AllPaths.
Import JS Frontend Notions MoreNotions JSFacts TraceLogic FrontendFacts Paths.

Lemma ticks_ticked (n : nat) (s : ui) :
  phaseTimer s = true -> ticks n s = (Normal tt, ticked n s).
Proof. apply ticks_armed. Qed.

(** The [try] block starts in [awaiting]. *)
Lemma run_settles pg net b :
  dispatches pg = true ->
  run pg net b =
  snd (try_catch_finally
         (settle net (textContent b))
         (fun err => doneProgress false ;; alert (failure_alert err))
         (clearInterval ;; set_disabled false ;;
          set_textContent (textContent b))
         (awaiting pg)).
Proof.
  intros D. unfold run. rewrite (click_dispatch pg net b D). reflexivity.
Qed.

Lemma run_normal pg net b s1 :
  dispatches pg = true ->
  settle net (textContent b) (awaiting pg) = (Normal tt, s1) ->
  run pg net b = finished b s1 [ClearInterval].
Proof.
  intros D H. rewrite (run_settles pg net b D).
  unfold try_catch_finally. rewrite H. reflexivity.
Qed.

Lemma run_thrown pg net b e s1 :
  dispatches pg = true ->
  settle net (textContent b) (awaiting pg) = (Throw e, s1) ->
  run pg net b =
  finished b s1 [DoneProgress false; Alert (failure_alert e); ClearInterval].
Proof.
  intros D H. rewrite (run_settles pg net b D).
  unfold try_catch_finally. rewrite H.
  unfold finished. cbn. rewrite <- !app_assoc. reflexivity.
Qed.

Section Settle.

Variable net : network.
Variable oldLabel : str.
Variable s : ui.
Hypothesis armed : phaseTimer s = true.

Lemma settle_rejected e :
  fetch_result net = Rejects e ->
  settle net oldLabel s = (Throw e, ticked (ticks_request net) s).
Proof.
  intros Hf. unfold settle. unfold bind at 1.
  rewrite (ticks_ticked _ s armed). rewrite Hf. reflexivity.
Qed.

Lemma settle_401 resp :
  fetch_result net = Resolves resp ->
  status resp = 401 ->
  settle net oldLabel s =
  (Normal tt,
   {| generateBtn := {| disabled := false; textContent := oldLabel |};
      phaseTimer := false;
      idx := (idx s + ticks_request net)%nat;
      trace := trace s ++ tick_events (ticks_request net) (idx s)
               ++ [Toast (lit "Session expired or not logged in. Please login.");
                   Navigate (lit "login.html");
                   ClearInterval;
                   DoneProgress false] |}).
Proof.
  intros Hf H4. unfold settle. unfold bind at 1.
  rewrite (ticks_ticked _ s armed). rewrite Hf.
  unfold await at 1, bind at 1, ret at 1. unfold handle401. rewrite H4.
  cbn. rewrite <- !app_assoc. reflexivity.
Qed.

Lemma settle_failure resp :
  fetch_result net = Resolves resp ->
  (status resp =? 401) = false ->
  Http.ok_status (status resp) = false ->
  settle net oldLabel s =
  (Throw (new_Error (status_message resp)),
   ticked (ticks_body net) (ticked (ticks_request net) s)).
Proof.
  intros Hf H4 Hok. unfold settle. unfold bind at 1.
  rewrite (ticks_ticked _ s armed). rewrite Hf.
  unfold await at 1, bind at 1, ret at 1. unfold handle401. rewrite H4.
  unfold bind at 1, ret at 1. rewrite Hok. cbv [negb].
  unfold bind at 1. rewrite ticks_ticked by reflexivity. reflexivity.
Qed.

(** The state in which the body of a successful response has been
    awaited. *)
Lemma settle_body resp :
  fetch_result net = Resolves resp ->
  Http.ok_status (status resp) = true ->
  settle net oldLabel s =
  (blob <- await (blob_result resp) ;;
   filename <- derive_filename (resp_headers resp) ;;
   emit (Download filename blob) ;;
   doneProgress true ;;
   toast (lit "Proposal downloaded"))
    (ticked (ticks_body net)
       {| generateBtn := generateBtn s; phaseTimer := true;
          idx := (idx s + ticks_request net)%nat;
          trace := trace s ++ tick_events (ticks_request net) (idx s)
                   ++ [SetPhase (lit "Downloading" ++ ellipsis)] |}).
Proof.
  intros Hf Hok. unfold settle. unfold bind at 1.
  rewrite (ticks_ticked _ s armed). rewrite Hf.
  unfold await at 1, bind at 1, ret at 1. unfold handle401.
  rewrite (ok_not_401 _ Hok).
  unfold bind at 1, ret at 1. rewrite Hok. cbv [negb].
  unfold bind at 1, setPhase at 1, emit at 1.
  unfold bind at 1. rewrite ticks_ticked by reflexivity.
  f_equal. f_equal. unfold ticked. cbn [trace generateBtn phaseTimer idx].
  rewrite <- app_assoc. reflexivity.
Qed.

End Settle.

(** *** What the tick events contribute to the projections of a trace *)

Lemma flat_map_ticks {B} (f : event -> list B) (n i : nat) :
  (forall m, f (SetPhase m) = []) -> flat_map f (tick_events n i) = [].
Proof.
  intros H. revert i. induction n as [|n IH]; intros i; [reflexivity|].
  rewrite tick_events_S. simpl. rewrite H, IH. reflexivity.
Qed.

Lemma alerts_ticks n i : alerts (tick_events n i) = [].
Proof. apply flat_map_ticks. reflexivity. Qed.

Lemma toasts_ticks n i : toasts (tick_events n i) = [].
Proof. apply flat_map_ticks. reflexivity. Qed.

Lemma navigations_ticks n i : navigations (tick_events n i) = [].
Proof. apply flat_map_ticks. reflexivity. Qed.

Lemma alerts_app l1 l2 : alerts (l1 ++ l2) = alerts l1 ++ alerts l2.
Proof. apply flat_map_app. Qed.

Lemma toasts_app l1 l2 : toasts (l1 ++ l2) = toasts l1 ++ toasts l2.
Proof. apply flat_map_app. Qed.

Lemma navigations_app l1 l2 :
  navigations (l1 ++ l2) = navigations l1 ++ navigations l2.
Proof. apply flat_map_app. Qed.

End AllPaths.

(* ================================================================== *)
(** ** Further properties of the client orchestrator *)

Module OrchestratorMore.
Import JS Frontend Notions MoreNotions Samples MoreSamples ProgressUI.
Import JSFacts TraceLogic FrontendFacts Paths FilenameFacts AllPaths.

Lemma filter_none {A} (f : A -> bool) (l : list A) :
  Forall (fun x => f x = false) l -> filter f l = [].
Proof.
  induction 1 as [|x l Hx _ IH]; [reflexivity|].
  simpl. rewrite Hx. exact IH.
Qed.

Lemma settled_emits (P : event -> Prop) net b :
  (forall e, is_fetch e = false -> P e) ->
  emits P (try_catch_finally
             (settle net (textContent b))
             (fun err => doneProgress false ;; alert (failure_alert err))
             (clearInterval ;; set_disabled false ;;
              set_textContent (textContent b))).
Proof.
  intros others. apply emits_try_catch_finally.
  - apply settle_emits. exact others.
  - intros e. apply (catch_emits P others e).
  - apply finally_emits. exact others.
Qed.

(** X1.  A trigger that passes both guards sends exactly one request, the
    page's own; any other trigger sends none. *)
Theorem X1_single_request pg net b :
  requests (trace (run pg net b)) =
  if dispatches pg then [the_request pg] else [].
Proof.
  destruct (dispatches pg) eqn:D.
  - rewrite (run_settles pg net b D).
    destruct (settled_emits (fun e => is_fetch e = false) net b
                (fun e H => H) (awaiting pg)) as [l [E F]].
    rewrite E. unfold requests. rewrite filter_app, (filter_none _ _ F).
    reflexivity.
  - unfold requests. apply filter_none. apply Forall_forall.
    intros e Hin. destruct e; try reflexivity.
    apply fetch_inversion in Hin. destruct Hin as (_ & _ & _ & D').
    congruence.
Qed.

Lemma authed_token pg :
  isAuthed pg = true ->
  exists token, access_token pg = Some token /\ token <> [] /\
                getToken pg = token.
Proof.
  unfold isAuthed, getToken. destruct (access_token pg) as [t|]; simpl.
  - destruct t as [|c t]; [discriminate|]. intros _.
    exists (c :: t). repeat split. discriminate.
  - discriminate.
Qed.

(** X2.  Every request the handler sends goes to [/api/generate_proposal]
    with a JSON content type and the stored, non-empty token as bearer
    credential. *)
Theorem X2_request_headers pg net b u h p :
  In (Fetch u h p) (trace (run pg net b)) ->
  u = lit "/api/generate_proposal" /\
  Http.get (lit "Content-Type") h = Some (lit "application/json") /\
  exists token,
    access_token pg = Some token /\ token <> [] /\
    Http.get (lit "Authorization") h = Some (lit "Bearer " ++ token).
Proof.
  intros Hin. apply fetch_inversion in Hin.
  destruct Hin as (-> & -> & _ & D).
  unfold dispatches in D. apply andb_true_iff in D. destruct D as [A _].
  destruct (authed_token pg A) as (token & Ht & Hne & Hg).
  unfold authHeaders. rewrite Hg.
  destruct token as [|c token]; [congruence|]. simpl truthy. cbv iota.
  split; [reflexivity|]. split; [reflexivity|].
  exists (c :: token). repeat split; assumption.
Qed.

Lemma X2_request_headers_witness :
  Http.get (lit "Authorization")
    (authHeaders filled_page [(lit "Content-Type", lit "application/json")])
  = Some (lit "Bearer tok-1").
Proof.
  destruct (X2_request_headers filled_page offline idle_button
              generate_url
              (authHeaders filled_page
                 [(lit "Content-Type", lit "application/json")])
              (build_payload filled_page))
    as (_ & _ & token & Ht & _ & Hg).
  - vm_compute. right. right. left. reflexivity.
  - rewrite Hg. vm_compute in Ht. inversion Ht. reflexivity.
Defined.

Lemma not_blank_iff (t : str) :
  forallb is_space t = false <-> exists c, In c t /\ is_space c = false.
Proof.
  induction t as [|c t IH]; simpl.
  - split; [discriminate | intros [c [[] _]]].
  - destruct (is_space c) eqn:E; simpl.
    + rewrite IH. split.
      * intros [x [Hx Hs]]. exists x. auto.
      * intros [x [[-> | Hx] Hs]]; [congruence | exists x; auto].
    + split; [|reflexivity]. intros _. exists c. auto.
Qed.

(** X3.  A request is sent exactly when local storage holds a non-empty
    token and the requirements text has a code unit that is not white
    space. *)
Theorem X3_dispatch_condition pg net b :
  (exists u h p, In (Fetch u h p) (trace (run pg net b))) <->
  (exists token, access_token pg = Some token /\ token <> []) /\
  (exists c, In c (reqText pg) /\ is_space c = false).
Proof.
  split.
  - intros (u & h & p & Hin). apply fetch_inversion in Hin.
    destruct Hin as (_ & _ & _ & D).
    unfold dispatches in D. apply andb_true_iff in D. destruct D as [A B].
    apply negb_true_iff in B. split.
    + destruct (authed_token pg A) as (token & Ht & Hne & _).
      exists token. auto.
    + apply not_blank_iff. exact B.
  - intros [(token & Ht & Hne) Hc].
    exists generate_url,
           (authHeaders pg [(lit "Content-Type", lit "application/json")]),
           (build_payload pg).
    apply dispatch_fetches. unfold dispatches. apply andb_true_iff. split.
    + unfold isAuthed, getToken. rewrite Ht.
      destruct token; [congruence | reflexivity].
    + apply negb_true_iff. apply not_blank_iff. exact Hc.
Qed.

(** *** The paths that end without a download *)

Ltac project_trace :=
  unfold finished, ticked, awaiting;
  cbn [trace generateBtn phaseTimer idx];
  repeat rewrite ?alerts_app, ?toasts_app, ?navigations_app, ?downloads_app,
                 ?alerts_ticks, ?toasts_ticks, ?navigations_ticks,
                 ?downloads_tick_events;
  try reflexivity.

(** The firings of the timer change the label only, and only where
    there is one. *)
Lemma rendered_ticks (n i : nat) (d : indicator) :
  exists t : str -> str,
    rendered (tick_events n i) d =
    {| wrap_display := wrap_display d;
       bar_classes := bar_classes d;
       lab_text := option_map t (lab_text d) |}.
Proof.
  revert i d. induction n as [|n IH]; intros i d.
  - exists (fun t0 => t0). destruct d as [w br [l|]]; reflexivity.
  - rewrite tick_events_S.
    set (m := nth (Nat.modulo i (List.length phases)) phases []).
    change (rendered (SetPhase m :: tick_events n (S i)) d)
      with (rendered (tick_events n (S i)) (setPhase_on m d)).
    destruct (IH (S i) (setPhase_on m d)) as [t Ht]. rewrite Ht.
    exists (fun _ => t m).
    destruct d as [w br [l|]]; reflexivity.
Qed.

Lemma rendered_app (l1 l2 : list event) (d : indicator) :
  rendered (l1 ++ l2) d = rendered l2 (rendered l1 d).
Proof. apply fold_left_app. Qed.

(** X4.  A 401 answer runs the session-expiry path once: one toast, one
    navigation to the login page, and neither an alert nor a download.
    The progress indicator is left marked as failed where its elements
    exist: the wrapper shown, the bar with the class [err] and without
    [ok], the label [Failed]; an element that is not in the page stays
    absent. *)
Theorem X4_session_expired pg net b resp :
  dispatches pg = true ->
  fetch_result net = Resolves resp ->
  status resp = 401 ->
  toasts (trace (run pg net b))
  = [lit "Session expired or not logged in. Please login."] /\
  navigations (trace (run pg net b)) = [lit "login.html"] /\
  alerts (trace (run pg net b)) = [] /\
  downloads (trace (run pg net b)) = [] /\
  forall d,
    rendered (trace (run pg net b)) d =
    {| wrap_display := set_if (wrap_display d) (lit "flex");
       bar_classes := set_if (bar_classes d) (false, true);
       lab_text := set_if (lab_text d) (lit "Failed") |}.
Proof.
  intros D Hf H4.
  rewrite (run_normal pg net b _ D
             (settle_401 net _ (awaiting pg) eq_refl resp Hf H4)).
  repeat split; project_trace.
  intros d. unfold finished, awaiting. cbn [trace idx].
  rewrite <- !app_assoc. rewrite !rendered_app.
  match goal with
  | |- context [rendered (tick_events ?n ?i) ?d0] =>
      destruct (rendered_ticks n i d0) as [t Ht]; rewrite Ht
  end.
  destruct d as [[w|] [br|] [l|]]; reflexivity.
Qed.

Lemma X4_session_expired_witness :
  toasts (trace (run filled_page (delivers expired_response) idle_button))
  = [lit "Session expired or not logged in. Please login."] /\
  downloads (trace (run filled_page (delivers expired_response) idle_button))
  = [] /\
  rendered (trace (run filled_page (delivers expired_response) idle_button))
    {| wrap_display := Some (lit "none");
       bar_classes := None;
       lab_text := Some [] |}
  = {| wrap_display := Some (lit "flex");
       bar_classes := None;
       lab_text := Some (lit "Failed") |}.
Proof.
  destruct (X4_session_expired filled_page (delivers expired_response)
              idle_button expired_response eq_refl eq_refl eq_refl)
    as (H1 & _ & _ & H4 & H5).
  split; [exact H1|]. split; [exact H4|]. rewrite H5. reflexivity.
Defined.

(** X5.  A status that is neither a success nor 401 ends in one alert that
    names the status and quotes at most the first 500 code units of the
    response text, or [<no body>] when the text cannot be read; nothing is
    downloaded and the page is not left. *)
Theorem X5_error_status pg net b resp :
  dispatches pg = true ->
  fetch_result net = Resolves resp ->
  status resp <> 401 ->
  Http.ok_status (status resp) = false ->
  alerts (trace (run pg net b)) =
    [lit "Generate failed: Generate API error " ++ of_num (status resp)
     ++ lit ": "
     ++ firstn 500 (match text_result resp with
                    | Resolves t => t
                    | Rejects _ => lit "<no body>"
                    end)] /\
  downloads (trace (run pg net b)) = [] /\
  navigations (trace (run pg net b)) = [] /\
  toasts (trace (run pg net b)) = [].
Proof.
  intros D Hf H4 Hok. apply N.eqb_neq in H4.
  rewrite (run_thrown pg net b _ _ D
             (settle_failure net _ (awaiting pg) eq_refl resp Hf H4 Hok)).
  repeat split; project_trace.
Qed.

Lemma X5_error_status_witness :
  alerts (trace (run filled_page (delivers overloaded_response) idle_button))
  = [lit "Generate failed: Generate API error 503: upstream busy"] /\
  alerts (trace (run filled_page
                   (delivers {| status := 500; resp_headers := [];
                                text_result := text_result unread_response;
                                blob_result := Resolves [] |})
                   idle_button))
  = [lit "Generate failed: Generate API error 500: <no body>"].
Proof.
  split.
  - destruct (X5_error_status filled_page (delivers overloaded_response)
                idle_button overloaded_response eq_refl eq_refl) as (H & _).
    + discriminate.
    + reflexivity.
    + rewrite H. reflexivity.
  - destruct (X5_error_status filled_page
                (delivers {| status := 500; resp_headers := [];
                             text_result := text_result unread_response;
                             blob_result := Resolves [] |})
                idle_button _ eq_refl eq_refl) as (H & _).
    + discriminate.
    + reflexivity.
    + rewrite H. reflexivity.
Defined.

Lemma settle_unread net oldLabel s resp e :
  phaseTimer s = true ->
  fetch_result net = Resolves resp ->
  Http.ok_status (status resp) = true ->
  blob_result resp = Rejects e ->
  exists s1, settle net oldLabel s = (Throw e, s1) /\
             downloads (trace s1) = downloads (trace s) /\
             alerts (trace s1) = alerts (trace s).
Proof.
  intros T Hf Hok Hb. rewrite (settle_body net oldLabel s T resp Hf Hok).
  rewrite Hb. eexists. split; [reflexivity|].
  split; project_trace; rewrite ?app_nil_r; reflexivity.
Qed.

Lemma failed_before_download pg net b e :
  dispatches pg = true ->
  fetch_result net = Rejects e \/
  (exists resp, fetch_result net = Resolves resp /\
                Http.ok_status (status resp) = true /\
                blob_result resp = Rejects e) ->
  downloads (trace (run pg net b)) = [].
Proof.
  intros D [Hf | (resp & Hf & Hok & Hb)].
  - rewrite (run_thrown pg net b _ _ D
               (settle_rejected net _ (awaiting pg) eq_refl e Hf)).
    project_trace.
  - destruct (settle_unread net (textContent b) (awaiting pg) resp e
                eq_refl Hf Hok Hb) as (s1 & Hs & Hd & _).
    rewrite (run_thrown pg net b _ _ D Hs).
    unfold finished; cbn [trace]. rewrite downloads_app, Hd. reflexivity.
Qed.

(** X6.  When the request cannot be made, or the body of a successful
    response cannot be read, the handler shows one alert with the message
    of the error and downloads nothing. *)
Theorem X6_transport_failure pg net b e :
  dispatches pg = true ->
  fetch_result net = Rejects e \/
  (exists resp, fetch_result net = Resolves resp /\
                Http.ok_status (status resp) = true /\
                blob_result resp = Rejects e) ->
  alerts (trace (run pg net b)) = [lit "Generate failed: " ++ err_display e] /\
  downloads (trace (run pg net b)) = [].
Proof.
  intros D H. split; [|exact (failed_before_download pg net b e D H)].
  destruct H as [Hf | (resp & Hf & Hok & Hb)].
  - rewrite (run_thrown pg net b _ _ D
               (settle_rejected net _ (awaiting pg) eq_refl e Hf)).
    project_trace.
  - destruct (settle_unread net (textContent b) (awaiting pg) resp e
                eq_refl Hf Hok Hb) as (s1 & Hs & _ & Ha).
    rewrite (run_thrown pg net b _ _ D Hs).
    unfold finished; cbn [trace]. rewrite alerts_app, Ha. reflexivity.
Qed.

Lemma X6_transport_failure_witness :
  alerts (trace (run filled_page offline idle_button))
  = [lit "Generate failed: Failed to fetch"] /\
  alerts (trace (run filled_page (delivers unread_response) idle_button))
  = [lit "Generate failed: network error"].
Proof.
  split.
  - destruct (X6_transport_failure filled_page offline idle_button
                {| err_name := lit "TypeError";
                   err_message := lit "Failed to fetch" |} eq_refl
                (or_introl eq_refl)) as [H _].
    rewrite H. reflexivity.
  - destruct (X6_transport_failure filled_page (delivers unread_response)
                idle_button
                {| err_name := lit "TypeError";
                   err_message := lit "network error" |} eq_refl) as [H _].
    + right. exists unread_response. repeat split.
    + rewrite H. reflexivity.
Defined.

(** *** What a download presupposes *)

(** Lines 193-198 either give a name or throw the [URIError]. *)
Lemma derive_cases (hs : Http.headers) :
  (exists f, derive_filename hs = ret f) \/ derive_filename hs = throw uri_error.
Proof.
  unfold derive_filename.
  repeat match goal with
         | |- context [match ?x with _ => _ end] => destruct x
         end;
    first [left; eexists; reflexivity | right; reflexivity].
Qed.

Lemma settle_misnamed net oldLabel s resp data :
  phaseTimer s = true ->
  fetch_result net = Resolves resp ->
  Http.ok_status (status resp) = true ->
  blob_result resp = Resolves data ->
  derive_filename (resp_headers resp) = throw uri_error ->
  exists s1, settle net oldLabel s = (Throw uri_error, s1) /\
             downloads (trace s1) = downloads (trace s) /\
             alerts (trace s1) = alerts (trace s).
Proof.
  intros T Hf Hok Hb Hd. rewrite (settle_body net oldLabel s T resp Hf Hok).
  rewrite Hb, Hd. eexists. split; [reflexivity|].
  split; project_trace; rewrite ?app_nil_r; reflexivity.
Qed.

Lemma in_downloads (tr : list event) f d :
  In (Download f d) tr -> In (f, d) (downloads tr).
Proof.
  induction tr as [|e tr IH]; [intros []|].
  intros [-> | Hin]; [left; reflexivity|].
  destruct e; simpl; auto.
Qed.

Lemma idle_downloads pg net b :
  dispatches pg = false -> downloads (trace (run pg net b)) = [].
Proof.
  intros D. unfold dispatches in D. unfold run, click.
  destruct (isAuthed pg); simpl in *; [|reflexivity].
  rewrite blank_guard. apply negb_false_iff in D. rewrite D. reflexivity.
Qed.

(** X7.  The handler never downloads anything it was not given: a
    download in the trace means that both guards were passed, that the
    response was a success, that its body was read and is the file
    downloaded, and that the name is the one lines 193-198 derive. *)
Theorem X7_download_is_earned pg net b f d :
  In (Download f d) (trace (run pg net b)) ->
  dispatches pg = true /\
  exists resp,
    fetch_result net = Resolves resp /\
    Http.ok_status (status resp) = true /\
    blob_result resp = Resolves d /\
    derive_filename (resp_headers resp) = ret f.
Proof.
  intros Hin. apply in_downloads in Hin.
  destruct (dispatches pg) eqn:D;
    [|rewrite (idle_downloads pg net b D) in Hin; destruct Hin].
  split; [reflexivity|].
  destruct (fetch_result net) as [resp|e] eqn:Hf.
  - destruct (Http.ok_status (status resp)) eqn:Hok.
    + destruct (blob_result resp) as [data|e] eqn:Hb.
      * destruct (derive_cases (resp_headers resp)) as [[g Hd] | Hd].
        -- rewrite (Orchestrator.success_downloads pg net b resp data g
                      D Hf Hok Hb Hd) in Hin.
           destruct Hin as [E | []]. inversion E; subst.
           exists resp. auto.
        -- destruct (settle_misnamed net (textContent b) (awaiting pg)
                       resp data eq_refl Hf Hok Hb Hd) as (s1 & Hs & Hdl & _).
           rewrite (run_thrown pg net b _ _ D Hs) in Hin.
           unfold finished in Hin. cbn [trace] in Hin.
           rewrite downloads_app, Hdl in Hin. destruct Hin.
      * rewrite (failed_before_download pg net b e D
                   (or_intror (ex_intro _ resp (conj Hf (conj Hok Hb)))))
          in Hin.
        destruct Hin.
    + destruct (N.eq_dec (status resp) 401) as [H4 | H4].
      * rewrite (run_normal pg net b _ D
                   (settle_401 net _ (awaiting pg) eq_refl resp Hf H4)) in Hin.
        revert Hin. project_trace. intros [].
      * apply N.eqb_neq in H4.
        rewrite (run_thrown pg net b _ _ D
                   (settle_failure net _ (awaiting pg) eq_refl resp Hf H4 Hok))
          in Hin.
        revert Hin. project_trace. intros [].
  - rewrite (failed_before_download pg net b e D (or_introl Hf)) in Hin.
    destruct Hin.
Qed.

Lemma X7_download_is_earned_witness :
  In (Download (lit "Proposal_X.docx") docx)
     (trace (run filled_page (delivers named_response) idle_button)) /\
  Http.ok_status (status named_response) = true.
Proof.
  assert (Hin : In (Download (lit "Proposal_X.docx") docx)
                   (trace (run filled_page (delivers named_response)
                             idle_button))).
  { vm_compute. repeat (first [left; reflexivity | right]). }
  split; [exact Hin|].
  destruct (X7_download_is_earned _ _ _ _ _ Hin)
    as (_ & resp & Hf & Hok & _).
  inversion Hf. subst resp. exact Hok.
Defined.

(** *** More on the file name *)

Lemma unquoted_inv (c : N) (t : str) :
  unquoted (c :: t) = true ->
  (c <> 59 /\ c <> 39 /\ c <> 34) /\ unquoted t = true.
Proof.
  unfold unquoted. simpl. intros H. apply andb_true_iff in H.
  destruct H as [Hc Ht]. split; [|exact Ht].
  apply negb_true_iff in Hc.
  repeat (apply orb_false_iff in Hc; destruct Hc as [Hc ?]).
  repeat split; apply N.eqb_neq; assumption.
Qed.

Lemma until_semicolon_unquoted (t : str) :
  unquoted t = true -> until_semicolon t = t.
Proof.
  induction t as [|c t IH]; intros H; [reflexivity|].
  apply unquoted_inv in H. destruct H as [(H59 & _) Ht].
  simpl. apply N.eqb_neq in H59. rewrite H59, IH by exact Ht. reflexivity.
Qed.

Lemma remove_quotes_unquoted (t : str) :
  unquoted t = true -> remove_quotes t = t.
Proof.
  induction t as [|c t IH]; intros H; [reflexivity|].
  apply unquoted_inv in H. destruct H as [(_ & H39 & H34) Ht].
  unfold remove_quotes in *. simpl.
  apply N.eqb_neq in H39. apply N.eqb_neq in H34. rewrite H39, H34. simpl.
  rewrite IH by exact Ht. reflexivity.
Qed.

(** Lines 193-198 on the extended form: the prefix goes, the rest is
    percent-decoded. *)
Lemma derive_extended (hs : Http.headers) (encoded : str) :
  unquoted encoded = true ->
  Http.get (lit "Content-Disposition") hs
  = Some (extended_disposition encoded) ->
  derive_filename hs =
  match decodeURIComponent encoded with
  | Decoded f => ret f
  | URIError => throw uri_error
  end.
Proof.
  intros Hu H. unfold derive_filename. rewrite H.
  change (opt_or_else
            (opt_or (Some (extended_disposition encoded))
                    (Http.get (lit "content-disposition") hs)) [])
    with (extended_disposition encoded).
  change (truthy (extended_disposition encoded)) with true. cbv iota.
  change (filename_match (extended_disposition encoded))
    with (match until_semicolon (lit "UTF-8''" ++ encoded) with
          | [] => None
          | g => Some g
          end).
  change (until_semicolon (lit "UTF-8''" ++ encoded))
    with (lit "UTF-8''" ++ until_semicolon encoded).
  rewrite (until_semicolon_unquoted encoded Hu).
  change (match lit "UTF-8''" ++ encoded with
          | [] => None
          | c :: g => Some (c :: g)
          end) with (Some (lit "UTF-8''" ++ encoded)).
  cbv iota.
  change (truthy (lit "UTF-8''" ++ encoded)) with true. cbv iota.
  change (remove_first_ci (lit "UTF-8''") (lit "UTF-8''" ++ encoded))
    with encoded.
  rewrite (remove_quotes_unquoted encoded Hu). reflexivity.
Qed.

(** X8.  For a successful response whose header has the extended form,
    [filename*=UTF-8] with two apostrophes and then a percent-encoded
    name, the file is downloaded under the percent-decoded name. *)
Theorem X8_extended_filename pg net b resp data encoded f :
  dispatches pg = true ->
  fetch_result net = Resolves resp ->
  Http.ok_status (status resp) = true ->
  blob_result resp = Resolves data ->
  unquoted encoded = true ->
  Http.get (lit "Content-Disposition") (resp_headers resp)
  = Some (extended_disposition encoded) ->
  decodeURIComponent encoded = Decoded f ->
  downloads (trace (run pg net b)) = [(f, data)].
Proof.
  intros D Hf Hok Hb Hu Hh Hd.
  apply (Orchestrator.success_downloads pg net b resp data f D Hf Hok Hb).
  rewrite (derive_extended _ encoded Hu Hh), Hd. reflexivity.
Qed.

Lemma X8_extended_filename_witness :
  downloads (trace (run filled_page (delivers extended_response) idle_button))
  = [(lit "na" ++ [239] ++ lit "ve plan.docx", docx)].
Proof.
  apply (X8_extended_filename filled_page (delivers extended_response)
           idle_button extended_response docx
           (lit "na%C3%AFve%20plan.docx"));
    reflexivity.
Defined.

(** X9.  A successful response whose extended file name has a malformed
    escape is not downloaded at all: the handler ends in the failure alert
    with the message of the [URIError] (the text is the one V8 gives to
    that error). *)
Theorem X9_malformed_filename pg net b resp data encoded :
  dispatches pg = true ->
  fetch_result net = Resolves resp ->
  Http.ok_status (status resp) = true ->
  blob_result resp = Resolves data ->
  unquoted encoded = true ->
  Http.get (lit "Content-Disposition") (resp_headers resp)
  = Some (extended_disposition encoded) ->
  decodeURIComponent encoded = URIError ->
  downloads (trace (run pg net b)) = [] /\
  alerts (trace (run pg net b)) = [lit "Generate failed: URI malformed"].
Proof.
  intros D Hf Hok Hb Hu Hh Hd.
  assert (Ht : derive_filename (resp_headers resp) = throw uri_error).
  { rewrite (derive_extended _ encoded Hu Hh), Hd. reflexivity. }
  destruct (settle_misnamed net (textContent b) (awaiting pg) resp data
              eq_refl Hf Hok Hb Ht) as (s1 & Hs & Hdl & Ha).
  rewrite (run_thrown pg net b _ _ D Hs).
  unfold finished; cbn [trace]. rewrite downloads_app, alerts_app, Hdl, Ha.
  split; reflexivity.
Qed.

Lemma X9_malformed_filename_witness :
  downloads (trace (run filled_page (delivers malformed_response) idle_button))
  = [] /\
  alerts (trace (run filled_page (delivers malformed_response) idle_button))
  = [lit "Generate failed: URI malformed"].
Proof.
  apply (X9_malformed_filename filled_page (delivers malformed_response)
           idle_button malformed_response docx (lit "100%.docx"));
    reflexivity.
Defined.

Lemma match_ci_suffix (pat t rest : str) :
  match_ci pat t = Some rest -> exists pre, t = pre ++ rest.
Proof.
  revert t. induction pat as [|p pat IH]; intros t H.
  - destruct t; inversion H; exists []; reflexivity.
  - destruct t as [|c t]; [discriminate|]. simpl in H.
    destruct (upper p =? upper c); [|discriminate].
    destruct (IH t H) as [pre E]. exists (c :: pre). rewrite E. reflexivity.
Qed.

Lemma filename_here_equals (t g : str) :
  filename_here t = Some g -> In 61 t.
Proof.
  unfold filename_here. intros H.
  destruct (match_ci (lit "filename") t) as [r|] eqn:E; [|discriminate].
  destruct (match_ci_suffix _ _ _ E) as [pre ->].
  apply in_or_app. right.
  destruct r as [|c r]; [discriminate|].
  destruct (N.eq_dec c 61) as [-> | Hc]; [left; reflexivity|].
  destruct (N.eq_dec c 42) as [-> | Hs].
  - destruct r as [|c2 r]; [discriminate|].
    destruct (N.eq_dec c2 61) as [-> | Hc2]; [right; left; reflexivity|].
    exfalso. revert H.
    destruct c2 as [|q]; [discriminate|].
    repeat (destruct q as [q|q|]; try discriminate); congruence.
  - exfalso. revert H.
    destruct c as [|q]; [discriminate|].
    repeat (destruct q as [q|q|]; try discriminate); congruence.
Qed.

Lemma filename_match_equals (t g : str) :
  filename_match t = Some g -> In 61 t.
Proof.
  induction t as [|c t IH]; intros H.
  - discriminate.
  - simpl filename_match in H.
    destruct (filename_here (c :: t)) as [g'|] eqn:E.
    + exact (filename_here_equals _ _ E).
    + right. exact (IH H).
Qed.

(** X10.  A successful response whose Content-Disposition value has no
    equals sign, such as a bare [attachment] or [inline], is downloaded
    under the default name [proposal.docx]. *)
Theorem X10_no_filename_parameter pg net b resp data cd :
  dispatches pg = true ->
  fetch_result net = Resolves resp ->
  Http.ok_status (status resp) = true ->
  blob_result resp = Resolves data ->
  Http.get (lit "Content-Disposition") (resp_headers resp) = Some cd ->
  ~ In 61 cd ->
  downloads (trace (run pg net b)) = [(lit "proposal.docx", data)].
Proof.
  intros D Hf Hok Hb Hh Hne.
  apply (Orchestrator.success_downloads pg net b resp data _ D Hf Hok Hb).
  unfold derive_filename.
  rewrite <- (get_any_case (lit "Content-Disposition")
                           (lit "content-disposition")) by reflexivity.
  rewrite Hh.
  destruct cd as [|c cd]; [reflexivity|].
  change (opt_or_else (opt_or (Some (c :: cd)) (Some (c :: cd))) [])
    with (c :: cd).
  change (truthy (c :: cd)) with true. cbv iota.
  destruct (filename_match (c :: cd)) as [g|] eqn:E; [|reflexivity].
  apply filename_match_equals in E. contradiction.
Qed.

Lemma X10_no_filename_parameter_witness :
  downloads (trace (run filled_page (delivers inline_response) idle_button))
  = [(lit "proposal.docx", docx)].
Proof.
  apply (X10_no_filename_parameter filled_page (delivers inline_response)
           idle_button inline_response docx (lit "inline"));
    try reflexivity.
  vm_compute. intuition discriminate.
Defined.

(** *** Progress labels *)

Lemma written_ticks (n i : nat) :
  flat_map written (tick_events n i) = map phase_at (seq i n).
Proof.
  revert i. induction n as [|n IH]; intros i; [reflexivity|].
  rewrite tick_events_S. simpl. rewrite IH. reflexivity.
Qed.

Section Read.

Variable net : network.
Variable oldLabel : str.
Variable s : ui.
Variable resp : response.
Hypothesis armed : phaseTimer s = true.
Hypothesis resolved : fetch_result net = Resolves resp.
Hypothesis success : Http.ok_status (status resp) = true.

Lemma settle_read_failed e :
  blob_result resp = Rejects e ->
  settle net oldLabel s = (Throw e, reading net s).
Proof.
  intros Hb. rewrite (settle_body net oldLabel s armed resp resolved success).
  rewrite Hb. reflexivity.
Qed.

Lemma settle_name_failed data :
  blob_result resp = Resolves data ->
  derive_filename (resp_headers resp) = throw uri_error ->
  settle net oldLabel s = (Throw uri_error, reading net s).
Proof.
  intros Hb Hd.
  rewrite (settle_body net oldLabel s armed resp resolved success).
  rewrite Hb, Hd. reflexivity.
Qed.

Lemma settle_downloaded data f :
  blob_result resp = Resolves data ->
  derive_filename (resp_headers resp) = ret f ->
  settle net oldLabel s =
  (Normal tt,
   {| generateBtn := generateBtn (reading net s);
      phaseTimer := true;
      idx := idx (reading net s);
      trace := trace (reading net s)
               ++ [Download f data; DoneProgress true;
                   Toast (lit "Proposal downloaded")] |}).
Proof.
  intros Hb Hd.
  rewrite (settle_success net oldLabel resp data f s armed resolved success
             Hb Hd).
  unfold reading, ticked. cbn [generateBtn idx trace phaseTimer].
  rewrite <- !app_assoc. reflexivity.
Qed.

End Read.

Ltac project_labels :=
  unfold finished, reading, ticked, awaiting;
  cbn [trace generateBtn phaseTimer idx];
  repeat rewrite ?flat_map_app, ?written_ticks, ?downloads_app,
                 ?downloads_tick_events;
  rewrite <- ?app_assoc.

(** X11.  While a successful response is awaited and read, a page that
    has the label element shows, in this order: [Preparing content...],
    then one phase per firing of the timer, the four phases in order and
    wrapping around, then [Downloading...] once the response is there,
    then one phase per firing during the read, carrying on from where the
    counter stood, and at the end [Completed] when the file was
    downloaded and [Failed] when it was not.  A page without the label
    element shows none of them. *)
Theorem X11_phase_labels pg net b resp :
  dispatches pg = true ->
  fetch_result net = Resolves resp ->
  Http.ok_status (status resp) = true ->
  label_history None (trace (run pg net b)) = [] /\
  exists final,
    ((final = lit "Completed" /\ downloads (trace (run pg net b)) <> []) \/
     (final = lit "Failed" /\ downloads (trace (run pg net b)) = [])) /\
    forall t0,
      label_history (Some t0) (trace (run pg net b)) =
      [lit "Preparing content" ++ ellipsis]
      ++ map phase_at (seq 0 (ticks_request net))
      ++ [lit "Downloading" ++ ellipsis]
      ++ map phase_at (seq (ticks_request net) (ticks_body net))
      ++ [final].
Proof.
  intros D Hf Hok. split; [reflexivity|].
  destruct (blob_result resp) as [data|e] eqn:Hb.
  - destruct (derive_cases (resp_headers resp)) as [[f Hd] | Hd].
    + exists (lit "Completed").
      rewrite (run_normal pg net b _ D
                 (settle_downloaded net _ (awaiting pg) resp eq_refl Hf Hok
                    data f Hb Hd)).
      split.
      * left. split; [reflexivity|]. project_labels. discriminate.
      * intros t0. unfold label_history. project_labels. reflexivity.
    + exists (lit "Failed").
      rewrite (run_thrown pg net b _ _ D
                 (settle_name_failed net _ (awaiting pg) resp eq_refl Hf Hok
                    data Hb Hd)).
      split.
      * right. split; [reflexivity|]. project_labels. reflexivity.
      * intros t0. unfold label_history. project_labels. reflexivity.
  - exists (lit "Failed").
    rewrite (run_thrown pg net b _ _ D
               (settle_read_failed net _ (awaiting pg) resp eq_refl Hf Hok
                  e Hb)).
    split.
    + right. split; [reflexivity|]. project_labels. reflexivity.
    + intros t0. unfold label_history. project_labels. reflexivity.
Qed.

Lemma X11_phase_labels_witness :
  label_history (Some [])
    (trace (run filled_page (delivers named_response) idle_button))
  = [ lit "Preparing content" ++ ellipsis;
      lit "Drafting sections" ++ ellipsis;
      lit "Calling AI agents" ++ ellipsis;
      lit "Formatting DOCX" ++ ellipsis;
      lit "Finalizing" ++ ellipsis;
      lit "Drafting sections" ++ ellipsis;
      lit "Downloading" ++ ellipsis;
      lit "Calling AI agents" ++ ellipsis;
      lit "Completed" ] /\
  label_history None
    (trace (run filled_page (delivers named_response) idle_button))
  = [].
Proof.
  destruct (X11_phase_labels filled_page (delivers named_response)
              idle_button named_response eq_refl eq_refl eq_refl)
    as (H0 & final & _ & H).
  split; [|exact H0]. reflexivity.
Defined.

End OrchestratorMore.

(* ================================================================== *)
(** ** The form, the clear button and start-up *)

Module FormAndStartup.
Import JS Frontend Notions MoreNotions Samples MoreSamples Startup.
Import JSFacts FrontendFacts.

Lemma or_else_nil (a : str) : or_else a [] = a.
Proof. destruct a; reflexivity. Qed.

(** X12.  The industry sent is the selector's value, except that the
    value [other] sends the text of the custom field instead (empty when
    that field is missing); without a selector it is empty. *)
Theorem X12_industry pg net b u h p :
  In (Fetch u h p) (trace (run pg net b)) ->
  (industrySelect pg = None -> industry p = []) /\
  (forall sel, industrySelect pg = Some sel -> value sel <> lit "other" ->
               industry p = value sel) /\
  (forall sel, industrySelect pg = Some sel -> value sel = lit "other" ->
               industry p = match industryCustomEl pg with
                            | Some custom => value custom
                            | None => []
                            end).
Proof.
  intros Hin. apply fetch_inversion in Hin.
  destruct Hin as (_ & _ & -> & _).
  unfold build_payload, industry, industryVal. rewrite or_else_nil.
  repeat split.
  - intros ->. reflexivity.
  - intros sel -> Hn. apply str_eqb_neq in Hn. rewrite Hn. reflexivity.
  - intros sel -> Ho. apply str_eqb_eq in Ho. rewrite Ho.
    unfold value_or. destruct (industryCustomEl pg) as [c|]; simpl;
      [apply or_else_nil | reflexivity].
Qed.

Lemma X12_industry_witness :
  industry (build_payload filled_page) = lit "Retail" /\
  industry (build_payload padded_option_page) = lit "Retail" /\
  industry (build_payload blank_page) = [].
Proof.
  assert (H1 : In (the_request filled_page)
                  (trace (run filled_page offline idle_button))).
  { vm_compute. right. right. left. reflexivity. }
  assert (H2 : In (the_request padded_option_page)
                  (trace (run padded_option_page offline idle_button))).
  { vm_compute. right. right. left. reflexivity. }
  destruct (X12_industry _ _ _ _ _ _ H1) as (_ & _ & A).
  destruct (X12_industry _ _ _ _ _ _ H2) as (_ & B & _).
  split; [|split].
  - rewrite (A {| value := lit "other" |} eq_refl eq_refl). reflexivity.
  - rewrite (B {| value := lit "Retail" |} eq_refl); [reflexivity|].
    vm_compute. discriminate.
  - reflexivity.
Defined.

(** X13.  The requirements text travels as typed: a dispatched payload
    carries the value of the requirements input unchanged, not trimmed,
    and that input exists and is not blank. *)
Theorem X13_requirements_as_typed pg net b u h p :
  In (Fetch u h p) (trace (run pg net b)) ->
  exists e,
    requirementsEl pg = Some e /\
    requirements_text p = value e /\
    forallb is_space (value e) = false.
Proof.
  intros Hin. apply fetch_inversion in Hin.
  destruct Hin as (_ & _ & -> & D).
  unfold dispatches in D. apply andb_true_iff in D. destruct D as [_ B].
  apply negb_true_iff in B. unfold requirements_blank, reqText in B.
  unfold build_payload, requirements_text.
  destruct (requirementsEl pg) as [e|]; [|discriminate].
  exists e. unfold value_or in *. simpl in *. rewrite or_else_nil in *.
  auto.
Qed.

Lemma X13_requirements_as_typed_witness :
  requirements_text
    (build_payload
       {| access_token := Some (lit "tok-1");
          clientNameEl := None; industrySelect := None;
          industryCustomEl := None; deploymentEl := None;
          proposalTypeEl := None;
          requirementsEl := field "  two sites  ";
          boqTextEl := None; hwprovGroupEl := None |})
  = lit "  two sites  ".
Proof.
  set (pg := {| access_token := Some (lit "tok-1");
                clientNameEl := None; industrySelect := None;
                industryCustomEl := None; deploymentEl := None;
                proposalTypeEl := None;
                requirementsEl := field "  two sites  ";
                boqTextEl := None; hwprovGroupEl := None |}).
  assert (H : In (the_request pg) (trace (run pg offline idle_button))).
  { vm_compute. right. right. left. reflexivity. }
  destruct (X13_requirements_as_typed _ _ _ _ _ _ H) as (e & He & Hr & _).
  rewrite Hr. inversion He. reflexivity.
Defined.

(** X14.  The proposal type sent is [detailed] when its selector is
    missing or empty and the selector's value otherwise; the BOQ sent is
    the value of the BOQ field, empty when the field is missing. *)
Theorem X14_optional_fields pg net b u h p :
  In (Fetch u h p) (trace (run pg net b)) ->
  (proposalTypeEl pg = None \/ proposalTypeEl pg = Some {| value := [] |} ->
   proposal_type p = lit "detailed") /\
  (forall e, proposalTypeEl pg = Some e -> value e <> [] ->
             proposal_type p = value e) /\
  client_boq p = match boqTextEl pg with
                 | Some e => value e
                 | None => []
                 end.
Proof.
  intros Hin. apply fetch_inversion in Hin.
  destruct Hin as (_ & _ & -> & _).
  unfold build_payload, proposal_type, client_boq, value_or.
  repeat split.
  - intros [-> | ->]; reflexivity.
  - intros e -> Hne. simpl. apply or_else_truthy. exact Hne.
  - destruct (boqTextEl pg); simpl; [apply or_else_nil | reflexivity].
Qed.

Lemma X14_optional_fields_witness :
  proposal_type (build_payload filled_page) = lit "short" /\
  proposal_type (build_payload blank_page) = lit "detailed" /\
  client_boq (build_payload filled_page) = lit "3x NX-1175S".
Proof.
  assert (H1 : In (the_request filled_page)
                  (trace (run filled_page offline idle_button))).
  { vm_compute. right. right. left. reflexivity. }
  destruct (X14_optional_fields _ _ _ _ _ _ H1) as (_ & A & B).
  split; [|split].
  - rewrite (A {| value := lit "short" |} eq_refl); [reflexivity|].
    discriminate.
  - reflexivity.
  - rewrite B. reflexivity.
Defined.

(** *** The clear button *)

Lemma unchecked_all (inputs : list checkbox) :
  filter (fun i => str_eqb (cb_name i) (lit "hwprov") && cb_checked i)
         (map uncheck inputs) = [].
Proof.
  induction inputs as [|i inputs IH]; [reflexivity|].
  simpl. unfold uncheck at 1 2.
  destruct (str_eqb (cb_name i) (lit "hwprov")) eqn:E; simpl.
  - rewrite E. simpl. exact IH.
  - rewrite E. simpl. exact IH.
Qed.

Lemma cleared_selection pg : getSelectedHardwareProviders (clear_click pg) = [].
Proof.
  unfold getSelectedHardwareProviders, clear_click. simpl.
  destruct (hwprovGroupEl pg) as [inputs|]; simpl; [|reflexivity].
  rewrite unchecked_all. reflexivity.
Qed.

(** X15.  After a click on the clear button no hardware provider is
    selected, inputs of the group with another name are untouched, and a
    trigger sends the same payload as before the click except that
    hardware_choice is [Nutanix]; whether a trigger dispatches is not
    affected. *)
Theorem X15_clear_then_generate pg net b :
  checked_values (clear_click pg) = [] /\
  (forall inputs i,
     hwprovGroupEl pg = Some inputs -> In i inputs ->
     cb_name i <> lit "hwprov" ->
     exists inputs', hwprovGroupEl (clear_click pg) = Some inputs' /\
                     In i inputs') /\
  dispatches (clear_click pg) = dispatches pg /\
  (forall u h p,
     In (Fetch u h p) (trace (run (clear_click pg) net b)) ->
     p = {| customer_name := customer_name (build_payload pg);
            industry := industry (build_payload pg);
            deployment_type := deployment_type (build_payload pg);
            proposal_type := proposal_type (build_payload pg);
            hardware_choice := lit "Nutanix";
            requirements_text := requirements_text (build_payload pg);
            client_requirements := client_requirements (build_payload pg);
            client_boq := client_boq (build_payload pg);
            boq_text := boq_text (build_payload pg) |}).
Proof.
  repeat split.
  - unfold checked_values, clear_click. simpl.
    destruct (hwprovGroupEl pg) as [inputs|]; simpl; [|reflexivity].
    rewrite unchecked_all. reflexivity.
  - intros inputs i Hg Hi Hn. unfold clear_click. simpl. rewrite Hg. simpl.
    eexists. split; [reflexivity|].
    apply in_map_iff. exists i. split; [|exact Hi].
    unfold uncheck. apply str_eqb_neq in Hn. rewrite Hn. reflexivity.
  - intros u h p Hin. apply fetch_inversion in Hin.
    destruct Hin as (_ & _ & -> & _).
    unfold build_payload at 1. rewrite cleared_selection. reflexivity.
Qed.

Lemma X15_clear_then_generate_witness :
  hardware_choice (build_payload filled_page) = lit "Dell, Lenovo" /\
  hardware_choice (build_payload (clear_click filled_page)) = lit "Nutanix".
Proof.
  split; [reflexivity|].
  destruct (X15_clear_then_generate filled_page offline idle_button)
    as (_ & _ & _ & H).
  rewrite (H generate_url
             (authHeaders (clear_click filled_page)
                [(lit "Content-Type", lit "application/json")])
             (build_payload (clear_click filled_page))).
  - reflexivity.
  - vm_compute. right. right. left. reflexivity.
Defined.

(** *** Start-up *)

Lemma init_once pg hb hc w :
  pso_init w = true -> init pg hb hc w = (w, []).
Proof. intros H. unfold init. rewrite H. reflexivity. Qed.

Lemma init_sets_flag pg hb hc w : pso_init (fst (init pg hb hc w)) = true.
Proof.
  unfold init. destruct (pso_init w) eqn:E; [exact E|].
  destruct hb; reflexivity.
Qed.

(** X16.  The start-up callback is idempotent: however often it runs on
    a page, the window is left as after the first run, with one click
    listener on the generate button when the button exists and none when
    it does not, and every run after the first shows neither alert nor
    toast. *)
Theorem X16_init_idempotent pg hb hc n :
  init_times (S n) pg hb hc fresh = fst (init pg hb hc fresh) /\
  generate_listeners (init_times (S n) pg hb hc fresh)
  = (if hb then 1 else 0)%nat /\
  snd (init pg hb hc (init_times (S n) pg hb hc fresh)) = [].
Proof.
  assert (G : forall k w, pso_init w = true -> init_times k pg hb hc w = w).
  { induction k as [|k IH]; intros w Hw; [reflexivity|].
    simpl. rewrite (init_once pg hb hc w Hw). simpl. exact (IH w Hw). }
  assert (E : init_times (S n) pg hb hc fresh = fst (init pg hb hc fresh)).
  { simpl. apply G. apply init_sets_flag. }
  rewrite E. split; [reflexivity|]. split.
  - unfold init, fresh. simpl. destruct hb; reflexivity.
  - rewrite init_once; [reflexivity | apply init_sets_flag].
Qed.

End FormAndStartup.

(* ================================================================== *)
(** ** Further properties of the server *)

Module GatewayMore.
Import JS Server CatalogApi Samples MoreSamples JSFacts.

(** *** [new Set] and [filter(Boolean)] *)

Lemma existsb_str_eqb (x : str) (acc : list str) :
  existsb (str_eqb x) acc = true <-> In x acc.
Proof.
  rewrite existsb_exists. split.
  - intros [y [Hy E]]. apply str_eqb_eq in E. subst. exact Hy.
  - intros H. exists x. split; [exact H | apply str_eqb_eq; reflexivity].
Qed.

Lemma set_add_spec (acc : list str) (x : str) :
  NoDup acc ->
  NoDup (set_add acc x) /\
  forall y, In y (set_add acc x) <-> In y acc \/ y = x.
Proof.
  intros ND. unfold set_add.
  destruct (existsb (str_eqb x) acc) eqn:E.
  - apply existsb_str_eqb in E. split; [exact ND|].
    intros y. split; [auto | intros [H | ->]; assumption].
  - assert (Hn : ~ In x acc).
    { intros H. apply existsb_str_eqb in H. congruence. }
    split.
    + apply NoDup_app; [exact ND | repeat constructor; intros [] |].
      intros y Hy [-> | []]. exact (Hn Hy).
    + intros y. rewrite in_app_iff. simpl. intuition.
Qed.

Lemma fold_set_add (xs acc : list str) :
  NoDup acc ->
  NoDup (fold_left set_add xs acc) /\
  forall y, In y (fold_left set_add xs acc) <-> In y acc \/ In y xs.
Proof.
  revert acc. induction xs as [|x xs IH]; intros acc ND; simpl.
  - split; [exact ND|]. intros y. intuition.
  - destruct (set_add_spec acc x ND) as [ND' Hin].
    destruct (IH _ ND') as [ND'' Hin'].
    split; [exact ND''|].
    intros y. rewrite Hin', Hin. intuition.
Qed.

(** The set has every element of the array, once. *)
Lemma new_Set_spec (xs : list str) :
  NoDup (new_Set xs) /\ forall y, In y (new_Set xs) <-> In y xs.
Proof.
  destruct (fold_set_add xs [] (NoDup_nil _)) as [ND Hin].
  split; [exact ND|]. intros y. rewrite (Hin y). simpl. intuition.
Qed.

Lemma filter_Boolean_spec (xs : list (option str)) (y : str) :
  In y (filter_Boolean xs) <-> y <> [] /\ In (Some y) xs.
Proof.
  induction xs as [|[x|] xs IH]; simpl.
  - intuition.
  - destruct x as [|c x]; simpl.
    + rewrite IH. split.
      * intros [H1 H2]. auto.
      * intros [H1 [H2 | H2]]; [inversion H2; congruence | auto].
    + rewrite IH. split.
      * intros [E | [H1 H2]]; [|auto].
        rewrite <- E. split; [discriminate | left; reflexivity].
      * intros [H1 [H2 | H2]]; [inversion H2; auto | auto].
  - rewrite IH. split.
    + intros [H1 H2]. auto.
    + intros [H1 [H2 | H2]]; [discriminate | auto].
Qed.

(** The distinct non-empty values of a column. *)
Lemma column_names (column : row -> option str) (rows : list row) :
  NoDup (new_Set (filter_Boolean (map column rows))) /\
  forall y, In y (new_Set (filter_Boolean (map column rows))) <->
            y <> [] /\ exists r, In r rows /\ column r = Some y.
Proof.
  destruct (new_Set_spec (filter_Boolean (map column rows))) as [ND Hin].
  split; [exact ND|]. intros y.
  rewrite Hin, filter_Boolean_spec, in_map_iff.
  split; intros [H1 [r [H2 H3]]]; (split; [exact H1|]); exists r; auto.
Qed.

Lemma in_not_null {A} (column : row -> option A) rows r :
  In r (not_null column rows) <-> In r rows /\ column r <> None.
Proof.
  unfold not_null. rewrite filter_In.
  destruct (column r); split; intros [H1 H2]; split; auto; congruence.
Qed.

Lemma in_eq_category_name category rows r :
  In r (eq_category_name category rows) <->
  In r rows /\ category_name r = Some category.
Proof.
  unfold eq_category_name. rewrite filter_In.
  destruct (category_name r) as [c|].
  - split; intros [H1 H2]; (split; [exact H1|]).
    + apply str_eqb_eq in H2. congruence.
    + inversion H2. apply str_eqb_eq. reflexivity.
  - split; intros [H1 H2]; discriminate.
Qed.

(** X17.  With the store answering, GET /api/categories answers 200 with
    each non-empty category name of the table exactly once, and nothing
    else. *)
Theorem X17_categories_distinct SUPABASE_TABLE db :
  store_fault db = None ->
  exists cs,
    categories SUPABASE_TABLE db
    = {| api_status := 200; api_body_of := Api_categories cs |} /\
    NoDup cs /\
    forall c, In c cs <->
              c <> [] /\
              exists r, In r (tables db (table_name SUPABASE_TABLE)) /\
                        category_name r = Some c.
Proof.
  intros Hs. unfold categories, answer_with, respond. rewrite Hs.
  cbn [query_error data_or_empty data].
  eexists. split; [reflexivity|].
  unfold category_names.
  destruct (column_names category_name
              (not_null category_name
                 (tables db (table_name SUPABASE_TABLE)))) as [ND Hin].
  split; [exact ND|]. intros c. rewrite Hin.
  split; intros [H1 [r [H2 H3]]]; (split; [exact H1|]); exists r.
  - apply in_not_null in H2. tauto.
  - split; [|exact H3]. apply in_not_null. split; [exact H2 | congruence].
Qed.

Lemma X17_categories_distinct_witness :
  categories None mixed_catalog
  = {| api_status := 200;
       api_body_of := Api_categories [lit "Cloud"; lit "Data"] |}.
Proof.
  destruct (X17_categories_distinct None mixed_catalog eq_refl)
    as (cs & E & _).
  rewrite E. vm_compute in E. inversion E. reflexivity.
Defined.

(** X18.  With the store answering, GET /api/services answers 200 with
    each non-empty service name exactly once: those of the rows of the
    given category, or of all rows when the category parameter is omitted
    or empty. *)
Theorem X18_services_of_category SUPABASE_TABLE db category :
  store_fault db = None ->
  exists ss,
    services SUPABASE_TABLE db category
    = {| api_status := 200; api_body_of := Api_services ss |} /\
    NoDup ss /\
    forall s, In s ss <->
              s <> [] /\
              exists r, In r (tables db (table_name SUPABASE_TABLE)) /\
                        service_name r = Some s /\
                        (forall c, category = Some c -> c <> [] ->
                                   category_name r = Some c).
Proof.
  intros Hs. unfold services, answer_with, respond. rewrite Hs.
  cbn [query_error data_or_empty data].
  eexists. split; [reflexivity|].
  unfold service_names.
  match goal with
  | |- NoDup (new_Set (filter_Boolean (map service_name ?rows))) /\ _ =>
      destruct (column_names service_name rows) as [ND Hin]
  end.
  split; [exact ND|]. intros s. rewrite Hin. clear ND Hin.
  destruct category as [[|k c]|]; simpl.
  - split; intros [H1 [r [H2 H3]]]; (split; [exact H1|]); exists r.
    + apply in_not_null in H2. split; [tauto|]. split; [exact H3|].
      intros c Hc Hne. inversion Hc. congruence.
    + split; [|tauto]. apply in_not_null. split; [tauto|].
      destruct H3 as [H3 _]. congruence.
  - split; intros [H1 [r [H2 H3]]]; (split; [exact H1|]); exists r.
    + apply in_eq_category_name in H2. destruct H2 as [H2 Hc].
      apply in_not_null in H2. split; [tauto|]. split; [exact H3|].
      intros c' Hc' _. inversion Hc'. subst. exact Hc.
    + destruct H3 as [H3 Hc]. split; [|exact H3].
      apply in_eq_category_name. split.
      * apply in_not_null. split; [exact H2 | congruence].
      * apply (Hc (k :: c) eq_refl). discriminate.
  - split; intros [H1 [r [H2 H3]]]; (split; [exact H1|]); exists r.
    + apply in_not_null in H2. split; [tauto|]. split; [exact H3|].
      intros c Hc. discriminate.
    + split; [|tauto]. apply in_not_null. split; [tauto|].
      destruct H3 as [H3 _]. congruence.
Qed.

Lemma X18_services_of_category_witness :
  services None mixed_catalog (Some (lit "Data"))
  = {| api_status := 200; api_body_of := Api_services [lit "Backup"] |} /\
  services None mixed_catalog None
  = {| api_status := 200;
       api_body_of := Api_services [lit "Migration"; lit "Backup";
                                    lit "Sizing"; lit "Workshop"] |}.
Proof.
  destruct (X18_services_of_category None mixed_catalog (Some (lit "Data"))
              eq_refl) as (s1 & E1 & _).
  destruct (X18_services_of_category None mixed_catalog None eq_refl)
    as (s2 & E2 & _).
  split.
  - rewrite E1. vm_compute in E1. inversion E1. reflexivity.
  - rewrite E2. vm_compute in E2. inversion E2. reflexivity.
Defined.

(** *** The catalog view *)

Lemma str_or_null_nonempty (v : option str) : str_or_null v <> Some [].
Proof. destruct v as [[|c t]|]; simpl; discriminate. Qed.

Lemma num_or_null_nonzero (v : option N) : num_or_null v <> Some 0.
Proof.
  destruct v as [n|]; simpl; [|discriminate].
  destruct (n =? 0) eqn:E; [discriminate|].
  apply N.eqb_neq in E. congruence.
Qed.

Lemma view_reports (r : row) : reports r (view r).
Proof.
  unfold reports, view, reported_name, reported_str, reported_num. simpl.
  repeat split.
  - destruct (category_name r) as [[|c t]|]; reflexivity.
  - destruct (service_name r) as [[|c t]|]; reflexivity.
  - destruct (positioning r) as [[|c t]|]; reflexivity.
  - destruct (description r) as [[|c t]|]; reflexivity.
  - destruct (price_man_day r) as [n|]; simpl; [|reflexivity].
    destruct (n =? 0); reflexivity.
  - destruct (duration_days r) as [n|]; simpl; [|reflexivity].
    destruct (n =? 0); reflexivity.
  - destruct (default_days r) as [n|]; simpl; [|reflexivity].
    destruct (n =? 0); reflexivity.
Qed.

(** X19.  With the store answering, GET /api/catalog answers 200 with
    the categories and the services of the rows the store returns.  The
    categories are the non-empty category names of those rows, each
    exactly once.  The services are one per row, in the store's order:
    a missing category or service name is reported as the empty string,
    every other column as its value, except that an empty string and a 0
    are reported as [null]; so no optional field is ever reported as an
    empty string or as 0. *)
Theorem X19_catalog_view (order_by_category_name : list row -> list row)
    SUPABASE_TABLE db :
  store_fault db = None ->
  exists cs vs,
    CatalogApi.catalog order_by_category_name SUPABASE_TABLE db
    = {| api_status := 200; api_body_of := Api_catalog cs vs |} /\
    NoDup cs /\
    (forall c, In c cs <->
               c <> [] /\
               exists r,
                 In r (order_by_category_name
                         (tables db (table_name SUPABASE_TABLE))) /\
                 category_name r = Some c) /\
    Forall2 reports
      (order_by_category_name (tables db (table_name SUPABASE_TABLE))) vs /\
    map v_service_name vs
    = map (fun r => match service_name r with Some n => n | None => [] end)
          (order_by_category_name (tables db (table_name SUPABASE_TABLE))) /\
    map v_category_name vs
    = map (fun r => match category_name r with Some n => n | None => [] end)
          (order_by_category_name (tables db (table_name SUPABASE_TABLE))) /\
    Forall (fun v => v_positioning v <> Some [] /\
                     v_description v <> Some [] /\
                     v_price_man_day v <> Some 0 /\
                     v_duration_days v <> Some 0 /\
                     v_default_days v <> Some 0) vs.
Proof.
  intros Hs. unfold CatalogApi.catalog, answer_with, respond. rewrite Hs.
  cbn [query_error data_or_empty data].
  eexists. eexists. split; [reflexivity|].
  set (rows := order_by_category_name (tables db (table_name SUPABASE_TABLE))).
  split; [apply (column_names category_name rows)|].
  split; [apply (column_names category_name rows)|].
  split; [|split; [|split]].
  - induction rows as [|r rows IH]; simpl; constructor;
      [apply view_reports | exact IH].
  - rewrite map_map. apply map_ext. intros r. unfold view. simpl.
    destruct (service_name r) as [n|]; [apply FormAndStartup.or_else_nil|];
      reflexivity.
  - rewrite map_map. apply map_ext. intros r. unfold view. simpl.
    destruct (category_name r) as [n|]; [apply FormAndStartup.or_else_nil|];
      reflexivity.
  - apply Forall_forall. intros v Hv. apply in_map_iff in Hv.
    destruct Hv as [r [<- _]]. unfold view. simpl.
    repeat split;
      first [apply str_or_null_nonempty | apply num_or_null_nonzero].
Qed.

Lemma X19_catalog_view_witness :
  exists vs,
    api_body_of (CatalogApi.catalog (fun rows => rows) None mixed_catalog)
    = Api_catalog [lit "Cloud"; lit "Data"] vs /\
    map v_price_man_day vs
    = [Some 900; None; Some 700; Some 500; Some 800] /\
    map v_description vs = [Some (lit "Move"); None; None; None; None].
Proof.
  destruct (X19_catalog_view (fun rows => rows) None mixed_catalog eq_refl)
    as (cs & vs & E & _).
  exists vs. rewrite E. vm_compute in E. inversion E. repeat split.
Defined.

(** X20.  A fault of the backing store makes each of the four catalog
    endpoints answer 500 with a fixed message and no data: [Supabase
    error] when the client reports an error, [Internal error] when the
    call throws. *)
Theorem X20_store_faults (order_by_category_name : list row -> list row)
    (ilike : str -> str -> bool) SUPABASE_TABLE db f category name :
  store_fault db = Some f ->
  name <> [] ->
  let msg := match f with
             | Returns_error => lit "Supabase error"
             | Throws => lit "Internal error"
             end in
  CatalogApi.catalog order_by_category_name SUPABASE_TABLE db
  = {| api_status := 500; api_body_of := Api_error msg |} /\
  categories SUPABASE_TABLE db
  = {| api_status := 500; api_body_of := Api_error msg |} /\
  services SUPABASE_TABLE db category
  = {| api_status := 500; api_body_of := Api_error msg |} /\
  service_details ilike SUPABASE_TABLE db (Some name)
  = {| res_status := 500; res_headers := []; res_body := Json_error msg |}.
Proof.
  intros Hs Hn msg. subst msg.
  unfold CatalogApi.catalog, categories, services, service_details, query_service,
    answer_with, respond.
  rewrite Hs. destruct name as [|c name]; [congruence|].
  destruct f; repeat split.
Qed.

Lemma X20_store_faults_witness :
  api_status (categories None (failing_catalog Throws)) = 500 /\
  service_details same_name None (failing_catalog Returns_error)
    (Some (lit "backup"))
  = {| res_status := 500; res_headers := [];
       res_body := Json_error (lit "Supabase error") |}.
Proof.
  destruct (X20_store_faults (fun rows => rows) same_name None
              (failing_catalog Throws) Throws None (lit "backup") eq_refl)
    as (_ & H & _); [discriminate|].
  destruct (X20_store_faults (fun rows => rows) same_name None
              (failing_catalog Returns_error) Returns_error None
              (lit "backup") eq_refl)
    as (_ & _ & _ & H'); [discriminate|].
  split; [rewrite H; reflexivity | exact H'].
Defined.

(** X21.  The row GET /api/service_details answers with is a row of the
    table whose service name matches the pattern asked for; the answer
    then has status 200. *)
Theorem X21_detail_is_a_match (ilike : str -> str -> bool)
    SUPABASE_TABLE db svc r :
  res_body (service_details ilike SUPABASE_TABLE db svc) = Json_row r ->
  res_status (service_details ilike SUPABASE_TABLE db svc) = 200 /\
  exists pattern n,
    svc = Some pattern /\
    In r (tables db (table_name SUPABASE_TABLE)) /\
    service_name r = Some n /\
    ilike n pattern = true.
Proof.
  unfold service_details, query_service.
  destruct svc as [[|c pattern]|]; simpl; try discriminate.
  destruct (store_fault db) as [[|]|]; simpl; try discriminate.
  unfold limit.
  destruct (ilike_service_name ilike (c :: pattern)
              (tables db (opt_or_else SUPABASE_TABLE (lit "proposals"))))
    as [|r0 rest] eqn:E; simpl; [discriminate|].
  intros H. inversion H. subst r0. split; [reflexivity|].
  assert (Hin : In r (ilike_service_name ilike (c :: pattern)
                        (tables db (opt_or_else SUPABASE_TABLE
                                      (lit "proposals")))))
    by (rewrite E; left; reflexivity).
  unfold ilike_service_name in Hin. apply filter_In in Hin.
  destruct Hin as [Hin Hm].
  destruct (service_name r) as [n|] eqn:En; [|discriminate].
  exists (c :: pattern), n. auto.
Qed.

Lemma X21_detail_is_a_match_witness :
  res_body (service_details same_name None Samples.catalog (Some (lit "BACKUP")))
  = Json_row (catalog_row "Data" "Backup" 2) /\
  res_status (service_details same_name None Samples.catalog (Some (lit "BACKUP")))
  = 200.
Proof.
  split; [reflexivity|].
  apply (X21_detail_is_a_match same_name None Samples.catalog (Some (lit "BACKUP"))
           (catalog_row "Data" "Backup" 2)).
  reflexivity.
Defined.

(** *** The proxies *)

Lemma configured (v : option str) (url : str) :
  env_or_null v = Some url <-> v = Some url /\ url <> [].
Proof.
  unfold env_or_null. destruct v as [[|c t]|]; simpl.
  - split; [discriminate | intros [H1 H2]; inversion H1; congruence].
  - split.
    + intros H. inversion H. split; [reflexivity | discriminate].
    + intros [H _]. exact H.
  - split; [discriminate | intros [H _]; discriminate].
Qed.

(** X22.  Whatever the downstream does, the generation proxy sends at
    most one request, and a request it sends is a POST of the serialised
    request body, with a JSON content type, to the configured, non-empty
    URL. *)
Theorem X22_proxy_calls (json_value : Type)
    (JSON_stringify : json_value -> str) GENERATE_URL req_body down :
  (List.length (fst (generate_proposal JSON_stringify GENERATE_URL req_body down))
   <= 1)%nat /\
  forall call,
    In call (fst (generate_proposal JSON_stringify GENERATE_URL req_body down)) ->
    GENERATE_URL = Some (out_url call) /\
    out_url call <> [] /\
    out_method call = lit "POST" /\
    out_headers call = [(lit "Content-Type", lit "application/json")] /\
    out_body call = JSON_stringify req_body.
Proof.
  unfold generate_proposal.
  destruct (env_or_null GENERATE_URL) as [url|] eqn:E.
  - apply configured in E. destruct E as [-> Hne].
    pose proof (Gateway.forward_call json_value JSON_stringify url req_body down)
      as Hc.
    destruct (forward JSON_stringify url req_body down) as [calls [rep|e]];
      simpl in *; subst calls; (split; [simpl; lia|]);
      intros call [<- | []]; simpl; auto.
  - simpl. split; [lia | intros call []].
Qed.

(** X23.  POST /api/suggest_services_ai_v2 with no downstream URL
    configured answers 501 and contacts no downstream; with a URL
    configured, a rejected downstream call is made once and answered with
    500 and the fixed message [Suggest proxy failed]. *)
Theorem X23_suggest_errors (json_value : Type) SUGGEST_URL
    (req_body : json_value) req_headers down :
  (SUGGEST_URL = None \/ SUGGEST_URL = Some [] ->
   suggest_services_ai_v2 SUGGEST_URL req_body req_headers down =
   ([], {| sg_status := 501;
           sg_body_of :=
             Sg_error (lit "No suggest endpoint configured (set SUGGEST_URL)") |})) /\
  (forall url e,
     SUGGEST_URL = Some url -> url <> [] -> down = Rejects e ->
     suggest_services_ai_v2 SUGGEST_URL req_body req_headers down =
     ([ {| sg_url := url; sg_method := lit "POST";
           sg_body_option := req_body; sg_headers_option := req_headers |} ],
      {| sg_status := 500;
         sg_body_of := Sg_error (lit "Suggest proxy failed") |})).
Proof.
  split.
  - intros [-> | ->]; reflexivity.
  - intros url e -> Hne ->. unfold suggest_services_ai_v2.
    destruct url as [|c url]; [congruence | reflexivity].
Qed.

Lemma X23_suggest_errors_witness :
  sg_status
    (snd (suggest_services_ai_v2 (Some (lit "http://ai:8000/suggest"))
            (lit "{}") caller_headers
            (Rejects {| err_name := lit "FetchError";
                        err_message := lit "ETIMEDOUT" |})))
  = 500.
Proof.
  rewrite (proj2 (X23_suggest_errors str
                    (Some (lit "http://ai:8000/suggest")) (lit "{}")
                    caller_headers
                    (Rejects {| err_name := lit "FetchError";
                                err_message := lit "ETIMEDOUT" |}))
             (lit "http://ai:8000/suggest")
             {| err_name := lit "FetchError"; err_message := lit "ETIMEDOUT" |}
             eq_refl ltac:(discriminate) eq_refl).
  reflexivity.
Defined.

(** X24.  With a URL configured and a downstream that answers, the
    suggestion proxy calls [fetch] once, with the configured URL, the
    method POST and, as [body] and [headers] options, [req.body] as
    parsed and [req.headers]; it relays the downstream status together
    with the downstream JSON, or with [null] when the downstream body is
    not JSON. *)
Theorem X24_suggest_relay (json_value : Type) url
    (req_body : json_value) req_headers proxied :
  url <> [] ->
  fst (suggest_services_ai_v2 (Some url) req_body req_headers
         (Resolves proxied))
  = [ {| sg_url := url; sg_method := lit "POST";
         sg_body_option := req_body; sg_headers_option := req_headers |} ] /\
  sg_status (snd (suggest_services_ai_v2 (Some url) req_body req_headers
                    (Resolves proxied)))
  = p_status proxied /\
  (forall v, p_json proxied = Resolves v ->
     sg_body_of (snd (suggest_services_ai_v2 (Some url) req_body req_headers
                        (Resolves proxied)))
     = Sg_json (Some v)) /\
  (forall e, p_json proxied = Rejects e ->
     sg_body_of (snd (suggest_services_ai_v2 (Some url) req_body req_headers
                        (Resolves proxied)))
     = Sg_json None).
Proof.
  intros Hne. unfold suggest_services_ai_v2.
  destruct url as [|c url]; [congruence|]. simpl.
  repeat split; intros x Hx; rewrite Hx; reflexivity.
Qed.

Lemma X24_suggest_relay_witness :
  suggest_services_ai_v2 (Some (lit "http://ai:8000/suggest"))
    (lit "{}") caller_headers
    (Resolves {| p_status := 502;
                 p_json := Rejects {| err_name := lit "SyntaxError";
                                      err_message := lit "Unexpected token" |} |})
  = ([ {| sg_url := lit "http://ai:8000/suggest"; sg_method := lit "POST";
          sg_body_option := lit "{}"; sg_headers_option := caller_headers |} ],
     {| sg_status := 502; sg_body_of := Sg_json None |}).
Proof.
  destruct (X24_suggest_relay str (lit "http://ai:8000/suggest") (lit "{}")
              caller_headers
              {| p_status := 502;
                 p_json := Rejects {| err_name := lit "SyntaxError";
                                      err_message := lit "Unexpected token" |} |})
    as (H1 & H2 & _ & H4); [discriminate|].
  reflexivity.
Defined.

End GatewayMore.

(* ================================================================== *)
(** ** The proxy and the orchestrator together *)

Module EndToEnd.
Import JS Server Frontend Notions Samples.
Import JSFacts FilenameFacts.

(** X25.  From the engine to the browser: when the proxy has a URL
    configured and the engine answers a success with a body and a
    Content-Disposition that quotes a plain file name, a browser that
    receives the status, that header and the body of the proxy's reply
    downloads exactly that body under exactly that name. *)
Theorem X25_engine_to_download (json_value : Type)
    (JSON_stringify : json_value -> str) url req_body r buffer name
    pg net b resp received :
  url <> [] ->
  r_buffer r = Resolves buffer ->
  Http.ok_status (r_status r) = true ->
  plain_name name = true ->
  Http.get (lit "Content-Disposition") (r_headers r)
  = Some (quoted_disposition name) ->
  dispatches pg = true ->
  fetch_result net = Resolves resp ->
  status resp
  = res_status (snd (generate_proposal JSON_stringify (Some url) req_body
                       (Resolves r))) ->
  Http.get (lit "Content-Disposition") (resp_headers resp)
  = Http.get (lit "Content-Disposition")
      (res_headers (snd (generate_proposal JSON_stringify (Some url) req_body
                           (Resolves r)))) ->
  blob_result resp = Resolves received ->
  res_body (snd (generate_proposal JSON_stringify (Some url) req_body
                   (Resolves r)))
  = Buffer received ->
  downloads (trace (run pg net b)) = [(name, buffer)].
Proof.
  intros Hu Hb Hok Hp Hcd D Hf Hst Hh Hd Hbody.
  unfold generate_proposal, env_or_null in Hst, Hh, Hbody.
  destruct url as [|c url]; [congruence|]. simpl truthy in *. cbv iota in *.
  unfold forward in Hst, Hh, Hbody. rewrite Hb in Hst, Hh, Hbody.
  rewrite <- (get_any_case (lit "Content-Disposition")
                           (lit "content-disposition")) in Hh by reflexivity.
  rewrite Hcd in Hh.
  cbv [snd res_status res_headers res_body] in Hst, Hh, Hbody.
  inversion Hbody. subst received.
  apply (Orchestrator.success_downloads pg net b resp buffer name D Hf).
  - rewrite Hst. exact Hok.
  - exact Hd.
  - apply derive_quoted_plain; [exact Hp|]. rewrite Hh. reflexivity.
Qed.

Lemma X25_engine_to_download_witness :
  downloads (trace (run filled_page (delivers named_response) idle_button))
  = [(lit "Proposal_X.docx", docx)].
Proof.
  apply (X25_engine_to_download str (fun j => j)
           (lit "http://gen:8000/generate") (lit "{}")
           {| r_status := 200;
              r_headers := r_headers engine_response;
              r_buffer := Resolves docx |}
           docx (lit "Proposal_X.docx")
           filled_page (delivers named_response) idle_button named_response
           docx);
    try reflexivity.
  discriminate.
Defined.

End EndToEnd.
